(** * hackOrSnooze: the API classes of [api-classes.js]

    A shallow embedding of the three classes [StoryList], [User] and [Story]
    and of the requests they send through [axios].

    - JavaScript arrays are mutable objects: [push] and [unshift] update an
      array in place, [filter] and [map] build a new one.  The arrays live in
      a store indexed by references, and the objects hold references, so two
      fields that point to the same array are modelled as such.
    - A method is an [async] function: it resolves with a value or rejects
      with an error, and what it did to the store before it rejected stays
      done.  The computations below are state transformers that return an
      [Outcome].
    - The remote service is a variable [server]: from the requests already
      sent and the current one it gives the reply [axios] settles with. *)

From stdpp Require Import gmap strings list fin_maps.

Local Open Scope string_scope.
Local Open Scope list_scope.

(** ** JavaScript values that arrive as [token] and [username]

    What a caller has for the two: [localStorage.getItem] gives [null] or a
    string, and an argument that is not passed is [undefined]. *)

Module Js.

Inductive value : Type :=
  | undefined
  | null
  | str (s : string).

#[global] Instance value_eq_dec : EqDecision value.
Proof. solve_decision. Defined.

(** [ToBoolean]: of the values above only a non-empty string is truthy. *)
Definition truthy (v : value) : bool :=
  match v with
  | str s => bool_decide (s ≠ "")
  | undefined | null => false
  end.

(** The logical not of JavaScript, [!v]. *)
Definition not (v : value) : bool := negb (truthy v).

(** [ToString], as a template literal applies it. *)
Definition to_string (v : value) : string :=
  match v with
  | undefined => "undefined"
  | null => "null"
  | str s => s
  end.

(** A value is absent when there is none: [undefined] or [null]. *)
Definition absent (v : value) : Prop := v = undefined ∨ v = null.

End Js.

(** ** Records of the remote service (plain objects of a response)

    The story record and the user record of the service; the user record
    comes with its two arrays of story records. *)

Module StoryObj.
Record t : Type := mk {
  author : string;
  title : string;
  url : string;
  username : string;
  storyId : string;
  createdAt : string;
  updatedAt : string
}.
End StoryObj.

Module UserObj.
Record t : Type := mk {
  username : string;
  name : string;
  createdAt : string;
  updatedAt : string;
  favorites : list StoryObj.t;
  stories : list StoryObj.t
}.
End UserObj.

(** ** class Story *)

Module Story.

Record t : Type := mk {
  author : string;
  title : string;
  url : string;
  username : string;
  storyId : string;
  createdAt : string;
  updatedAt : string
}.

#[global] Instance t_eq_dec : EqDecision t.
Proof. solve_decision. Defined.

(** [new Story(storyObj)]: the constructor copies the seven fields. *)
Definition new (storyObj : StoryObj.t) : t :=
  {| author := StoryObj.author storyObj;
     title := StoryObj.title storyObj;
     url := StoryObj.url storyObj;
     username := StoryObj.username storyObj;
     storyId := StoryObj.storyId storyObj;
     createdAt := StoryObj.createdAt storyObj;
     updatedAt := StoryObj.updatedAt storyObj |}.

End Story.

(** ** Requests and replies *)

Definition BASE_URL : string := "https://hack-or-snooze-v3.herokuapp.com".

Inductive Method : Type := GET | POST | DELETE.

(** What a request carries: the [data] of a body, or the [params] of a
    query string. *)
Inductive Payload : Type :=
  | NoPayload
  | DataToken (token : Js.value)
  | DataStory (token : Js.value) (title author url : string)
  | DataSignup (username password name : string)
  | DataLogin (username password : string)
  | ParamsToken (token : Js.value).

Record Request : Type := mkRequest {
  req_method : Method;
  req_url : string;
  req_payload : Payload
}.

(** [response.data], with the properties the classes read.  A property
    the reply does not have reads as [None] ([undefined] for [token]). *)
Record Data : Type := mkData {
  data_stories : option (list StoryObj.t);
  data_story : option StoryObj.t;
  data_user : option UserObj.t;
  data_token : Js.value
}.

Inductive Reply : Type :=
  | Response (data : Data)
  | Failure (message : string).

(** ** class User and class StoryList: the objects

    The fields of the two classes.  The arrays are references into the
    store. *)

Abbreviation ref := positive.

Module User.
Record t : Type := mk {
  username : string;
  name : string;
  createdAt : string;
  updatedAt : string;
  loginToken : Js.value;
  favorites : ref;
  ownStories : ref
}.
End User.

Module StoryList.
Record t : Type := mk {
  stories : ref
}.
End StoryList.

(** ** The store and the computations

    A world: the arrays and the objects that exist, each under its
    reference, and the requests sent so far, oldest first. *)

Record World : Type := mkWorld {
  arrays : gmap positive (list Story.t);
  users : gmap positive User.t;
  storyLists : gmap positive StoryList.t;
  sent : list Request
}.

(** The world after one array, one object or the list of requests has
    changed. *)
Definition upd_array (r : positive) (l : list Story.t) (w : World) : World :=
  mkWorld (<[r := l]> (arrays w)) (users w) (storyLists w) (sent w).

Definition upd_user (r : positive) (u : User.t) (w : World) : World :=
  mkWorld (arrays w) (<[r := u]> (users w)) (storyLists w) (sent w).

Definition upd_storyList (r : positive) (sl : StoryList.t) (w : World)
    : World :=
  mkWorld (arrays w) (users w) (<[r := sl]> (storyLists w)) (sent w).

Definition upd_sent (request : Request) (w : World) : World :=
  mkWorld (arrays w) (users w) (storyLists w) (sent w ++ [request]).

(** What a method rejects with: the error of a failed request, or a
    TypeError.  [Dangling] is for a reference to nothing in the store;
    JavaScript has no such reference, and no method makes one. *)
Inductive Error : Type :=
  | AxiosError (message : string)
  | TypeError
  | Dangling (r : positive).

Inductive Outcome (A : Type) : Type :=
  | Resolved (a : A)
  | Rejected (e : Error).
Arguments Resolved {A} a.
Arguments Rejected {A} e.

Definition Eff (A : Type) : Type := World → Outcome A * World.

#[global] Instance Eff_ret : MRet Eff := λ A a w, (Resolved a, w).

#[global] Instance Eff_bind : MBind Eff := λ A B k m w,
  match m w with
  | (Resolved a, w') => k a w'
  | (Rejected e, w') => (Rejected e, w')
  end.

Definition throw {A} (e : Error) : Eff A := λ w, (Rejected e, w).

(** Reading a property of [response.data] that may be missing: a property
    of [undefined] cannot be read, which is a TypeError. *)
Definition prop {A} (o : option A) : Eff A :=
  match o with
  | Some a => mret a
  | None => throw TypeError
  end.

(** What a computation settles with, and the world it leaves. *)
Definition outcome {A} (m : Eff A) (w : World) : Outcome A := (m w).1.
Definition after {A} (m : Eff A) (w : World) : World := (m w).2.

(** *** Arrays *)

Module Array.

(** A new array object holding [l]. *)
Definition alloc (l : list Story.t) : Eff ref :=
  λ w, let r := fresh (dom (arrays w)) in (Resolved r, upd_array r l w).

Definition read (r : ref) : Eff (list Story.t) :=
  λ w, match arrays w !! r with
       | Some l => (Resolved l, w)
       | None => (Rejected (Dangling r), w)
       end.

Definition write (r : ref) (l : list Story.t) : Eff unit :=
  λ w, (Resolved (), upd_array r l w).

(** [arr.unshift(x)]: in place, at the front. *)
Definition unshift (r : ref) (x : Story.t) : Eff unit :=
  l ← read r; write r (x :: l).

(** [arr.push(x)]: in place, at the end. *)
Definition push (r : ref) (x : Story.t) : Eff unit :=
  l ← read r; write r (l ++ [x]).

(** [arr.filter(p)]: a new array. *)
Definition filter (p : Story.t → bool) (r : ref) : Eff ref :=
  l ← read r; alloc (List.filter p l).

(** [arr.some(p)]. *)
Definition some (p : Story.t → bool) (r : ref) : Eff bool :=
  l ← read r; mret (existsb p l).

(** [objs.map((s) => new Story(s))]: a new array of Story instances. *)
Definition of_records (objs : list StoryObj.t) : Eff ref :=
  alloc (map Story.new objs).

End Array.

(** [s.storyId !== storyId] and [s.storyId === storyId], on strings. *)
Definition storyId_differs (storyId : string) (s : Story.t) : bool :=
  bool_decide (Story.storyId s ≠ storyId).
Definition storyId_is (storyId : string) (s : Story.t) : bool :=
  bool_decide (Story.storyId s = storyId).

(** *** Objects *)

Definition get_user (this : ref) : Eff User.t :=
  λ w, match users w !! this with
       | Some u => (Resolved u, w)
       | None => (Rejected (Dangling this), w)
       end.

Definition put_user (this : ref) (u : User.t) : Eff unit :=
  λ w, (Resolved (), upd_user this u w).

(** [this.favorites = r] and the like. *)
Definition set_favorites (this : ref) (r : ref) : Eff unit :=
  u ← get_user this;
  put_user this
    (User.mk (User.username u) (User.name u) (User.createdAt u)
             (User.updatedAt u) (User.loginToken u) r (User.ownStories u)).

Definition set_ownStories (this : ref) (r : ref) : Eff unit :=
  u ← get_user this;
  put_user this
    (User.mk (User.username u) (User.name u) (User.createdAt u)
             (User.updatedAt u) (User.loginToken u) (User.favorites u) r).

Definition set_loginToken (this : ref) (token : Js.value) : Eff unit :=
  u ← get_user this;
  put_user this
    (User.mk (User.username u) (User.name u) (User.createdAt u)
             (User.updatedAt u) token (User.favorites u) (User.ownStories u)).

Definition get_storyList (this : ref) : Eff StoryList.t :=
  λ w, match storyLists w !! this with
       | Some sl => (Resolved sl, w)
       | None => (Rejected (Dangling this), w)
       end.

Definition put_storyList (this : ref) (sl : StoryList.t) : Eff unit :=
  λ w, (Resolved (), upd_storyList this sl w).

(** [this.stories = r]. *)
Definition set_stories (this : ref) (r : ref) : Eff unit :=
  get_storyList this;; put_storyList this (StoryList.mk r).

(** A new User object with the fields [u]. *)
Definition alloc_user (u : User.t) : Eff ref :=
  λ w, let this := fresh (dom (users w)) in (Resolved this, upd_user this u w).

(** [new User(userObj)]: a new object with the four fields of [userObj],
    then the defaults [""], [[]] and [[]]. *)
Definition new_User (userObj : UserObj.t) : Eff ref :=
  fav ← Array.alloc [];
  own ← Array.alloc [];
  alloc_user
    (User.mk (UserObj.username userObj) (UserObj.name userObj)
             (UserObj.createdAt userObj) (UserObj.updatedAt userObj)
             (Js.str "") fav own).

(** [new StoryList(stories)]. *)
Definition new_StoryList (stories : ref) : Eff ref :=
  λ w, let this := fresh (dom (storyLists w)) in
       (Resolved this, upd_storyList this (StoryList.mk stories) w).

(** ** The methods *)

Section Methods.

(** The remote service: its reply to a request, given the requests sent
    before it. *)
Variable server : list Request → Request → Reply.

(** [axios(request)]: the request is sent, and the call settles with the
    reply of the service: it resolves with [response.data] or rejects. *)
Definition axios (request : Request) : Eff Data :=
  λ w, match server (sent w) request with
       | Response data => (Resolved data, upd_sent request w)
       | Failure message => (Rejected (AxiosError message), upd_sent request w)
       end.

(** *** class StoryList *)

(** [static async getStories()], lines 26-36. *)
Definition getStories : Eff ref :=
  data ← axios (mkRequest GET (BASE_URL +:+ "/stories") NoPayload);
  objs ← prop (data_stories data);
  stories ← Array.of_records objs;
  storyList ← new_StoryList stories;
  mret storyList.

(** [async addStory(user, { title, author, url })], lines 47-60: the
    request first, then the two [unshift]. *)
Definition addStory (this user : ref) (title author url : string)
    : Eff Story.t :=
  u ← get_user user;
  let token := User.loginToken u in
  data ← axios (mkRequest POST (BASE_URL +:+ "/stories")
                  (DataStory token title author url));
  storyObj ← prop (data_story data);
  let story := Story.new storyObj in
  sl ← get_storyList this;
  Array.unshift (StoryList.stories sl) story;;
  u ← get_user user;
  Array.unshift (User.ownStories u) story;;
  mret story.

(** [async removeStory(user, storyId)], lines 63-77: the request first,
    then the three [filter]. *)
Definition removeStory (this user : ref) (storyId : string) : Eff unit :=
  u ← get_user user;
  let token := User.loginToken u in
  axios (mkRequest DELETE (BASE_URL +:+ "/stories/" +:+ storyId)
           (DataToken (User.loginToken u)));;
  sl ← get_storyList this;
  st ← Array.filter (storyId_differs storyId) (StoryList.stories sl);
  set_stories this st;;
  u ← get_user user;
  own ← Array.filter (storyId_differs storyId) (User.ownStories u);
  set_ownStories user own;;
  u ← get_user user;
  fav ← Array.filter (storyId_differs storyId) (User.favorites u);
  set_favorites user fav.

(** *** class User *)

(** [static async create(username, password, name)], lines 108-124. *)
Definition create (username password name : string) : Eff ref :=
  data ← axios (mkRequest POST (BASE_URL +:+ "/signup")
                  (DataSignup username password name));
  userObj ← prop (data_user data);
  newUser ← new_User userObj;
  set_loginToken newUser (data_token data);;
  mret newUser.

(** [static async login(username, password)], lines 132-153. *)
Definition login (username password : string) : Eff ref :=
  data ← axios (mkRequest POST (BASE_URL +:+ "/login")
                  (DataLogin username password));
  userObj ← prop (data_user data);
  existingUser ← new_User userObj;
  fav ← Array.of_records (UserObj.favorites userObj);
  set_favorites existingUser fav;;
  own ← Array.of_records (UserObj.stories userObj);
  set_ownStories existingUser own;;
  set_loginToken existingUser (data_token data);;
  mret existingUser.

(** [static async getLoggedInUser(token, username)], lines 161-184.  The
    result [None] is [null]. *)
Definition getLoggedInUser (token username : Js.value) : Eff (option ref) :=
  if Js.not token || Js.not username then mret None
  else
    data ← axios
             (mkRequest GET (BASE_URL +:+ "/users/" +:+ Js.to_string username)
                        (ParamsToken token));
    userObj ← prop (data_user data);
    existingUser ← new_User userObj;
    set_loginToken existingUser token;;
    fav ← Array.of_records (UserObj.favorites userObj);
    set_favorites existingUser fav;;
    own ← Array.of_records (UserObj.stories userObj);
    set_ownStories existingUser own;;
    mret (Some existingUser).

(** [async _addOrRemoveFavorite(newState, story)], lines 209-217. *)
Definition _addOrRemoveFavorite (this : ref) (newState : string)
    (story : Story.t) : Eff unit :=
  let method := if bool_decide (newState = "add") then POST else DELETE in
  u ← get_user this;
  let token := User.loginToken u in
  axios (mkRequest method
           (BASE_URL +:+ "/users/" +:+ User.username u +:+ "/favorites/"
              +:+ Story.storyId story)
           (DataToken token));;
  mret ().

(** [async addFavorite(story)], lines 190-193: the [push] first, then the
    request. *)
Definition addFavorite (this : ref) (story : Story.t) : Eff unit :=
  u ← get_user this;
  Array.push (User.favorites u) story;;
  _addOrRemoveFavorite this "add" story.

(** [async removeFavorite(story)], lines 199-202: the [filter] first, then
    the request. *)
Definition removeFavorite (this : ref) (story : Story.t) : Eff unit :=
  u ← get_user this;
  fav ← Array.filter (storyId_differs (Story.storyId story)) (User.favorites u);
  set_favorites this fav;;
  _addOrRemoveFavorite this "remove" story.

(** [isFavorite(story)], lines 221-223. *)
Definition isFavorite (this : ref) (story : Story.t) : Eff bool :=
  u ← get_user this;
  Array.some (storyId_is (Story.storyId story)) (User.favorites u).

End Methods.

(** ** What an object holds, read through its references *)

Definition stories_of (w : World) (this : ref) : option (list Story.t) :=
  sl ← storyLists w !! this; arrays w !! StoryList.stories sl.

Definition favorites_of (w : World) (user : ref) : option (list Story.t) :=
  u ← users w !! user; arrays w !! User.favorites u.

Definition ownStories_of (w : World) (user : ref) : option (list Story.t) :=
  u ← users w !! user; arrays w !! User.ownStories u.

(** ** Stating properties of computations

    [wp m w Q]: run from [w], the computation [m] settles with an outcome
    and leaves a world that satisfy [Q].  The computations are functions,
    so this is [Q] at the result. *)

Definition wp {A} (m : Eff A) (w : World) (Q : Outcome A → World → Prop)
    : Prop :=
  Q (outcome m w) (after m w).

(** [Q] after [k], or [Q] at once when the first part rejected. *)
Definition wp_next {A B} (k : A → Eff B) (Q : Outcome B → World → Prop)
    : Outcome A → World → Prop :=
  λ o w, match o with
         | Resolved a => wp (k a) w Q
         | Rejected e => Q (Rejected e) w
         end.

(** A list of stories has no two entries with the same [storyId]. *)
Definition no_duplicates (l : list Story.t) : Prop :=
  NoDup (map Story.storyId l).

(** The invariant of section 3 of the specification, for a User and for a
    StoryList of the world. *)
Definition user_inv (w : World) (user : ref) : Prop :=
  match favorites_of w user, ownStories_of w user with
  | Some fav, Some own => no_duplicates fav ∧ no_duplicates own
  | _, _ => False
  end.

Definition storyList_inv (w : World) (this : ref) : Prop :=
  match stories_of w this with
  | Some st => no_duplicates st
  | None => False
  end.

#[global] Instance no_duplicates_dec l : Decision (no_duplicates l).
Proof. unfold no_duplicates. apply _. Defined.

#[global] Instance user_inv_dec w user : Decision (user_inv w user).
Proof.
  unfold user_inv.
  destruct (favorites_of w user), (ownStories_of w user); apply _.
Defined.

#[global] Instance storyList_inv_dec w this : Decision (storyList_inv w this).
Proof. unfold storyList_inv. destruct (stories_of w this); apply _. Defined.

(** The three arrays of a StoryList and a User are three objects. *)
Definition separate (sl : StoryList.t) (u : User.t) : Prop :=
  StoryList.stories sl ≠ User.favorites u ∧
  StoryList.stories sl ≠ User.ownStories u ∧
  User.favorites u ≠ User.ownStories u.

(** A world is well formed when the arrays its objects refer to exist and
    no two fields refer to one array of a User and a StoryList.  The
    classes build such worlds only: every array they store in a field is
    one they have just made with [[]], [map] or [filter]. *)
Definition wf (w : World) : Prop :=
  (∀ user u, users w !! user = Some u →
     is_Some (arrays w !! User.favorites u) ∧
     is_Some (arrays w !! User.ownStories u) ∧
     User.favorites u ≠ User.ownStories u) ∧
  (∀ this sl, storyLists w !! this = Some sl →
     is_Some (arrays w !! StoryList.stories sl)) ∧
  (∀ this sl user u,
     storyLists w !! this = Some sl → users w !! user = Some u →
     StoryList.stories sl ≠ User.favorites u ∧
     StoryList.stories sl ≠ User.ownStories u).

(** An array that exists and that no field refers to yet. *)
Definition unowned (w : World) (r : ref) : Prop :=
  is_Some (arrays w !! r) ∧
  (∀ user u, users w !! user = Some u →
     r ≠ User.favorites u ∧ r ≠ User.ownStories u) ∧
  (∀ this sl, storyLists w !! this = Some sl → r ≠ StoryList.stories sl).

Definition empty_world : World := mkWorld ∅ ∅ ∅ [].

(** The calls a client of the classes makes, and the worlds these calls
    build from the empty one. *)
Inductive Call : Type :=
  | Call_getStories
  | Call_addStory (this user : ref) (title author url : string)
  | Call_removeStory (this user : ref) (storyId : string)
  | Call_create (username password name : string)
  | Call_login (username password : string)
  | Call_getLoggedInUser (token username : Js.value)
  | Call_addFavorite (this : ref) (story : Story.t)
  | Call_removeFavorite (this : ref) (story : Story.t)
  | Call_isFavorite (this : ref) (story : Story.t).

Definition run (server : list Request → Request → Reply) (c : Call)
    (w : World) : World :=
  match c with
  | Call_getStories => after (getStories server) w
  | Call_addStory this user title author url =>
      after (addStory server this user title author url) w
  | Call_removeStory this user storyId =>
      after (removeStory server this user storyId) w
  | Call_create username password name =>
      after (create server username password name) w
  | Call_login username password =>
      after (login server username password) w
  | Call_getLoggedInUser token username =>
      after (getLoggedInUser server token username) w
  | Call_addFavorite this story => after (addFavorite server this story) w
  | Call_removeFavorite this story =>
      after (removeFavorite server this story) w
  | Call_isFavorite this story => after (isFavorite this story) w
  end.

Inductive built (server : list Request → Request → Reply) : World → Prop :=
  | built_empty : built server empty_world
  | built_call c w : built server w → built server (run server c w).

(** Two User records with the same profile: all but the two arrays. *)
Definition same_profile (u u' : User.t) : Prop :=
  User.username u' = User.username u ∧
  User.name u' = User.name u ∧
  User.loginToken u' = User.loginToken u ∧
  User.createdAt u' = User.createdAt u ∧
  User.updatedAt u' = User.updatedAt u.

(** The requests the methods send. *)
Definition request_addStory (u : User.t) (title author url : string)
    : Request :=
  mkRequest POST (BASE_URL +:+ "/stories")
    (DataStory (User.loginToken u) title author url).

Definition request_removeStory (u : User.t) (storyId : string) : Request :=
  mkRequest DELETE (BASE_URL +:+ "/stories/" +:+ storyId)
    (DataToken (User.loginToken u)).

Definition request_signup (username password name : string) : Request :=
  mkRequest POST (BASE_URL +:+ "/signup")
    (DataSignup username password name).

Definition request_login (username password : string) : Request :=
  mkRequest POST (BASE_URL +:+ "/login") (DataLogin username password).

Definition request_user (token username : Js.value) : Request :=
  mkRequest GET (BASE_URL +:+ "/users/" +:+ Js.to_string username)
    (ParamsToken token).

Definition request_favorite (method : Method) (u : User.t) (story : Story.t)
    : Request :=
  mkRequest method
    (BASE_URL +:+ "/users/" +:+ User.username u +:+ "/favorites/"
       +:+ Story.storyId story)
    (DataToken (User.loginToken u)).

(** What a request to the favorites endpoint settles the method with. *)
Definition settled (reply : Reply) : Outcome unit :=
  match reply with
  | Response _ => Resolved ()
  | Failure message => Rejected (AxiosError message)
  end.

(** ** A small world to run the methods in *)

Module Sample.

Definition s1 : Story.t :=
  Story.mk "Ada" "Notes" "http://a.example" "bob" "sid1" "2020" "2020".
Definition s2 : Story.t :=
  Story.mk "Bob" "Diary" "http://b.example" "bob" "sid2" "2021" "2021".
Definition storyObj3 : StoryObj.t :=
  StoryObj.mk "A" "T" "U" "bob" "sid3" "2022" "2022".

(** bob, whose favorites are the array 3 and whose own stories are the
    array 2; the story list 1, whose stories are the array 1. *)
Definition bob : User.t :=
  User.mk "bob" "Bob B" "2019" "2019" (Js.str "tok") 3%positive 2%positive.
Definition feed : StoryList.t := StoryList.mk 1%positive.

Definition w0 : World :=
  mkWorld
    (<[3%positive := [s1]]>
       (<[2%positive := [s2]]> (<[1%positive := [s1; s2]]> ∅)))
    (<[1%positive := bob]> ∅)
    (<[1%positive := feed]> ∅)
    [].

(** A list and a user that share one array: what a caller gets who passes
    [user.ownStories] to [new StoryList]. *)
Definition w_shared : World :=
  mkWorld
    (<[3%positive := [s1]]> (<[2%positive := [s2]]> ∅))
    (<[1%positive := bob]> ∅)
    (<[1%positive := StoryList.mk 2%positive]> ∅)
    [].

Definition bobObj : UserObj.t :=
  UserObj.mk "bob" "Bob B" "2019" "2019"
    [StoryObj.mk "Ada" "Notes" "http://a.example" "bob" "sid1" "2020" "2020"]
    [storyObj3].

(** A service that accepts every request, one that is down, and one that
    stores usernames in lower case. *)
Definition server_ok : list Request → Request → Reply :=
  λ _ _, Response (mkData (Some [storyObj3]) (Some storyObj3) (Some bobObj)
                          (Js.str "tok")).

Definition server_down : list Request → Request → Reply :=
  λ _ _, Failure "Network Error".

(** A service that stores usernames in lower case: it answers a signup
    with the account it made. *)
Definition server_lowercase : list Request → Request → Reply :=
  λ _ _, Response (mkData None None
                     (Some (UserObj.mk "bob" "Bob B" "2023" "2023" [] []))
                     (Js.str "tok2")).

(** A service whose replies carry none of the properties the classes
    read. *)
Definition server_bare : list Request → Request → Reply :=
  λ _ _, Response (mkData None None None Js.undefined).

(** bob after a login at [server_ok] in the empty world, and the world
    after the feed is fetched as well. *)
Definition w_login : World :=
  run server_ok (Call_login "bob" "secret") empty_world.
Definition w_session : World := run server_ok Call_getStories w_login.

End Sample.

(** [w'] has every array and every object of [w], each as it is in [w]:
    what was made since is new. *)
Definition extends (w w' : World) : Prop :=
  (∀ r l, arrays w !! r = Some l → arrays w' !! r = Some l) ∧
  (∀ r u, users w !! r = Some u → users w' !! r = Some u) ∧
  (∀ r sl, storyLists w !! r = Some sl → storyLists w' !! r = Some sl).

(** The request of [getStories]. *)
Definition request_stories : Request :=
  mkRequest GET (BASE_URL +:+ "/stories") NoPayload.

(** A call sends no request or one, after those sent before. *)
Definition sends_at_most_one (w w' : World) : Prop :=
  sent w' = sent w ∨ ∃ request, sent w' = sent w ++ [request].

(** ** Rules for [wp]

    One rule for each construct of a computation. *)

Section Rules.

Context {A B : Type}.

Lemma wp_ret (a : A) w Q : Q (Resolved a) w → wp (mret a) w Q.
Proof. done. Qed.

Lemma wp_bind (m : Eff A) (k : A → Eff B) w Q :
  wp m w (wp_next k Q) → wp (m ≫= k) w Q.
Proof.
  unfold wp, wp_next, outcome, after, mbind, Eff_bind.
  by destruct (m w) as [[a|e] w'].
Qed.

Lemma wp_prop_Some (o : option A) a w Q :
  o = Some a → Q (Resolved a) w → wp (prop o) w Q.
Proof. by intros ->. Qed.

End Rules.

Lemma fresh_None {V} (m : gmap positive V) : m !! fresh (dom m) = None.
Proof. apply not_elem_of_dom, is_fresh. Qed.

Lemma wp_alloc l w Q :
  (∀ r, arrays w !! r = None → Q (Resolved r) (upd_array r l w)) →
  wp (Array.alloc l) w Q.
Proof. intros H. apply H, fresh_None. Qed.

Lemma wp_read r l w Q :
  arrays w !! r = Some l → Q (Resolved l) w → wp (Array.read r) w Q.
Proof. intros H HQ. unfold wp, outcome, after, Array.read. by rewrite H. Qed.

Lemma wp_unshift r x l w Q :
  arrays w !! r = Some l →
  Q (Resolved ()) (upd_array r (x :: l) w) → wp (Array.unshift r x) w Q.
Proof. intros H HQ. apply wp_bind. by eapply wp_read. Qed.

Lemma wp_filter p r l w Q :
  arrays w !! r = Some l →
  (∀ r', arrays w !! r' = None →
         Q (Resolved r') (upd_array r' (List.filter p l) w)) →
  wp (Array.filter p r) w Q.
Proof.
  intros H HQ. apply wp_bind. eapply wp_read; [done|]. by apply wp_alloc.
Qed.

Lemma wp_of_records objs w Q :
  (∀ r, arrays w !! r = None →
        Q (Resolved r) (upd_array r (map Story.new objs) w)) →
  wp (Array.of_records objs) w Q.
Proof. apply wp_alloc. Qed.

Lemma wp_get_user this u w Q :
  users w !! this = Some u → Q (Resolved u) w → wp (get_user this) w Q.
Proof. intros H HQ. unfold wp, outcome, after, get_user. by rewrite H. Qed.

Lemma wp_alloc_user u w Q :
  (∀ this, users w !! this = None → Q (Resolved this) (upd_user this u w)) →
  wp (alloc_user u) w Q.
Proof. intros H. apply H, fresh_None. Qed.

Lemma wp_set_favorites this r u w Q :
  users w !! this = Some u →
  Q (Resolved ())
    (upd_user this
       (User.mk (User.username u) (User.name u) (User.createdAt u)
          (User.updatedAt u) (User.loginToken u) r (User.ownStories u)) w) →
  wp (set_favorites this r) w Q.
Proof. intros H HQ. apply wp_bind. by eapply wp_get_user. Qed.

Lemma wp_set_ownStories this r u w Q :
  users w !! this = Some u →
  Q (Resolved ())
    (upd_user this
       (User.mk (User.username u) (User.name u) (User.createdAt u)
          (User.updatedAt u) (User.loginToken u) (User.favorites u) r) w) →
  wp (set_ownStories this r) w Q.
Proof. intros H HQ. apply wp_bind. by eapply wp_get_user. Qed.

Lemma wp_set_loginToken this token u w Q :
  users w !! this = Some u →
  Q (Resolved ())
    (upd_user this
       (User.mk (User.username u) (User.name u) (User.createdAt u)
          (User.updatedAt u) token (User.favorites u) (User.ownStories u))
       w) →
  wp (set_loginToken this token) w Q.
Proof. intros H HQ. apply wp_bind. by eapply wp_get_user. Qed.

Lemma wp_get_storyList this sl w Q :
  storyLists w !! this = Some sl →
  Q (Resolved sl) w → wp (get_storyList this) w Q.
Proof.
  intros H HQ. unfold wp, outcome, after, get_storyList. by rewrite H.
Qed.

Lemma wp_set_stories this r sl w Q :
  storyLists w !! this = Some sl →
  Q (Resolved ()) (upd_storyList this (StoryList.mk r) w) →
  wp (set_stories this r) w Q.
Proof. intros H HQ. apply wp_bind. by eapply wp_get_storyList. Qed.

Lemma wp_new_StoryList r w Q :
  (∀ this, storyLists w !! this = None →
           Q (Resolved this) (upd_storyList this (StoryList.mk r) w)) →
  wp (new_StoryList r) w Q.
Proof. intros H. apply H, fresh_None. Qed.

Lemma wp_new_User userObj w Q :
  (∀ fav own this,
     arrays w !! fav = None → arrays w !! own = None → fav ≠ own →
     users w !! this = None →
     Q (Resolved this)
       (upd_user this
          (User.mk (UserObj.username userObj) (UserObj.name userObj)
             (UserObj.createdAt userObj) (UserObj.updatedAt userObj)
             (Js.str "") fav own)
          (upd_array own [] (upd_array fav [] w)))) →
  wp (new_User userObj) w Q.
Proof.
  intros H. apply wp_bind, wp_alloc. intros fav Hfav.
  apply wp_bind, wp_alloc. intros own Hown. simpl in Hown.
  apply wp_alloc_user. intros this Hthis.
  apply lookup_insert_None in Hown as [Hown Hne].
  by apply H.
Qed.

Section AxiosRules.

Variable server : list Request → Request → Reply.

Lemma wp_axios_Response request data w Q :
  server (sent w) request = Response data →
  Q (Resolved data) (upd_sent request w) → wp (axios server request) w Q.
Proof. intros H HQ. unfold wp, outcome, after, axios. by rewrite H. Qed.

End AxiosRules.

(** The same rules when the outcome is not known: both cases. *)

Lemma wp_read_any r w Q :
  (∀ l, arrays w !! r = Some l → Q (Resolved l) w) →
  (arrays w !! r = None → Q (Rejected (Dangling r)) w) →
  wp (Array.read r) w Q.
Proof.
  intros HS HN. unfold wp, outcome, after, Array.read.
  destruct (arrays w !! r) eqn:E; simpl; auto.
Qed.

Lemma wp_get_user_any this w Q :
  (∀ u, users w !! this = Some u → Q (Resolved u) w) →
  (users w !! this = None → Q (Rejected (Dangling this)) w) →
  wp (get_user this) w Q.
Proof.
  intros HS HN. unfold wp, outcome, after, get_user.
  destruct (users w !! this) eqn:E; simpl; auto.
Qed.

Lemma wp_get_storyList_any this w Q :
  (∀ sl, storyLists w !! this = Some sl → Q (Resolved sl) w) →
  (storyLists w !! this = None → Q (Rejected (Dangling this)) w) →
  wp (get_storyList this) w Q.
Proof.
  intros HS HN. unfold wp, outcome, after, get_storyList.
  destruct (storyLists w !! this) eqn:E; simpl; auto.
Qed.

Lemma wp_prop_any {A} (o : option A) w Q :
  (∀ a, o = Some a → Q (Resolved a) w) →
  (o = None → Q (Rejected TypeError) w) →
  wp (prop o) w Q.
Proof. intros HS HN. destruct o; [by apply HS | by apply HN]. Qed.

Lemma wp_axios_any server request w Q :
  (∀ data, server (sent w) request = Response data →
           Q (Resolved data) (upd_sent request w)) →
  (∀ message, server (sent w) request = Failure message →
              Q (Rejected (AxiosError message)) (upd_sent request w)) →
  wp (axios server request) w Q.
Proof.
  intros HS HN. unfold wp, outcome, after, axios.
  destruct (server (sent w) request) eqn:E; simpl; auto.
Qed.

Lemma wp_unshift_any r x w Q :
  (∀ l, arrays w !! r = Some l → Q (Resolved ()) (upd_array r (x :: l) w)) →
  (arrays w !! r = None → Q (Rejected (Dangling r)) w) →
  wp (Array.unshift r x) w Q.
Proof. intros HS HN. apply wp_bind, wp_read_any; [apply HS | apply HN]. Qed.

Lemma wp_push_any r x w Q :
  (∀ l, arrays w !! r = Some l →
        Q (Resolved ()) (upd_array r (l ++ [x]) w)) →
  (arrays w !! r = None → Q (Rejected (Dangling r)) w) →
  wp (Array.push r x) w Q.
Proof. intros HS HN. apply wp_bind, wp_read_any; [apply HS | apply HN]. Qed.

Lemma wp_filter_any p r w Q :
  (∀ l r', arrays w !! r = Some l → arrays w !! r' = None →
           Q (Resolved r') (upd_array r' (List.filter p l) w)) →
  (arrays w !! r = None → Q (Rejected (Dangling r)) w) →
  wp (Array.filter p r) w Q.
Proof.
  intros HS HN. apply wp_bind, wp_read_any; [|apply HN].
  intros l Hl. apply wp_alloc. intros r' Hr'. by apply HS.
Qed.

Lemma wp_set_stories_any this r w Q :
  (∀ sl, storyLists w !! this = Some sl →
         Q (Resolved ()) (upd_storyList this (StoryList.mk r) w)) →
  (storyLists w !! this = None → Q (Rejected (Dangling this)) w) →
  wp (set_stories this r) w Q.
Proof.
  intros HS HN. apply wp_bind, wp_get_storyList_any; [apply HS | apply HN].
Qed.

(** Looking up after updates: a reference that was free differs from
    every reference in use. *)
Ltac split_fresh :=
  repeat match goal with
  | H : <[_ := _]> _ !! _ = None |- _ =>
      apply lookup_insert_None in H as [? ?]
  end.

Ltac solve_lookup := simpl in *; split_fresh; by simplify_map_eq.

(** What the views give, unfolded. *)
Lemma stories_of_Some w this l :
  stories_of w this = Some l ↔
  ∃ sl, storyLists w !! this = Some sl ∧
        arrays w !! StoryList.stories sl = Some l.
Proof. unfold stories_of. by rewrite bind_Some. Qed.

Lemma favorites_of_Some w user l :
  favorites_of w user = Some l ↔
  ∃ u, users w !! user = Some u ∧ arrays w !! User.favorites u = Some l.
Proof. unfold favorites_of. by rewrite bind_Some. Qed.

Lemma ownStories_of_Some w user l :
  ownStories_of w user = Some l ↔
  ∃ u, users w !! user = Some u ∧ arrays w !! User.ownStories u = Some l.
Proof. unfold ownStories_of. by rewrite bind_Some. Qed.

Lemma filter_differs_spec storyId l s :
  s ∈ List.filter (storyId_differs storyId) l →
  Story.storyId s ≠ storyId.
Proof.
  rewrite list_elem_of_In, filter_In. intros [_ H].
  by apply bool_decide_eq_true in H.
Qed.

(** ** class StoryList: removeStory *)

Section RemoveStory.

Variable server : list Request → Request → Reply.

Lemma removeStory_wp w this user storyId sl u l_st l_own l_fav data :
  storyLists w !! this = Some sl →
  users w !! user = Some u →
  arrays w !! StoryList.stories sl = Some l_st →
  arrays w !! User.ownStories u = Some l_own →
  arrays w !! User.favorites u = Some l_fav →
  server (sent w) (request_removeStory u storyId) = Response data →
  wp (removeStory server this user storyId) w (λ o w',
    o = Resolved () ∧
    stories_of w' this = Some (List.filter (storyId_differs storyId) l_st) ∧
    ownStories_of w' user
      = Some (List.filter (storyId_differs storyId) l_own) ∧
    favorites_of w' user
      = Some (List.filter (storyId_differs storyId) l_fav)).
Proof.
  intros Hsl Hu Hst Hown Hfav Hsrv. unfold removeStory.
  apply wp_bind. eapply wp_get_user; [done|].
  apply wp_bind. eapply wp_axios_Response; [done|].
  apply wp_bind. eapply wp_get_storyList; [done|].
  apply wp_bind. eapply wp_filter; [done|]. intros r1 Hr1.
  apply wp_bind. eapply wp_set_stories; [done|].
  apply wp_bind. eapply wp_get_user; [done|].
  apply wp_bind. eapply wp_filter; [solve_lookup|]. intros r2 Hr2.
  apply wp_bind. eapply wp_set_ownStories; [done|].
  apply wp_bind. eapply wp_get_user; [solve_lookup|].
  apply wp_bind. eapply wp_filter; [solve_lookup|]. intros r3 Hr3.
  eapply wp_set_favorites; [solve_lookup|].
  unfold stories_of, ownStories_of, favorites_of. simpl in *. split_fresh.
  by simplify_map_eq.
Qed.

(** C1.  When [removeStory(user, storyId)] completes successfully, no
    entry of the list's stories, of [user.ownStories] or of
    [user.favorites] has that storyId, whichever of the three lists held
    it; the entries with another storyId are retained, in order: each list
    is the old one filtered. *)
Theorem removeStory_removes_storyId w this user storyId u l_st l_own l_fav
    data :
  stories_of w this = Some l_st →
  users w !! user = Some u →
  ownStories_of w user = Some l_own →
  favorites_of w user = Some l_fav →
  server (sent w) (request_removeStory u storyId) = Response data →
  let w' := after (removeStory server this user storyId) w in
  outcome (removeStory server this user storyId) w = Resolved () ∧
  ∃ st' own' fav',
    stories_of w' this = Some st' ∧
    ownStories_of w' user = Some own' ∧
    favorites_of w' user = Some fav' ∧
    (∀ s, s ∈ st' ++ own' ++ fav' → Story.storyId s ≠ storyId) ∧
    st' = List.filter (λ s, bool_decide (Story.storyId s ≠ storyId)) l_st ∧
    own' = List.filter (λ s, bool_decide (Story.storyId s ≠ storyId)) l_own ∧
    fav' = List.filter (λ s, bool_decide (Story.storyId s ≠ storyId)) l_fav.
Proof.
  intros Hst Hu Hown Hfav Hsrv w'.
  apply stories_of_Some in Hst as (sl & Hsl & Hst).
  apply ownStories_of_Some in Hown as (u1 & Hu1 & Hown).
  apply favorites_of_Some in Hfav as (u2 & Hu2 & Hfav).
  simplify_eq.
  destruct (removeStory_wp w this user storyId sl u l_st l_own l_fav data)
    as (Ho & Hst' & Hown' & Hfav'); try done.
  split; [done|]. eexists _, _, _. repeat split; try done.
  intros s. rewrite !elem_of_app.
  intros [H|[H|H]]; by eapply filter_differs_spec.
Qed.

End RemoveStory.

(** The theorem at the sample world: "sid1" is in the feed and in bob's
    favorites; afterwards the three lists are [[s2]], [[s2]] and [[]]. *)
Lemma removeStory_removes_storyId_witness :
  let m := removeStory Sample.server_ok 1 1 "sid1" in
  outcome m Sample.w0 = Resolved () ∧
  stories_of (after m Sample.w0) 1 = Some [Sample.s2] ∧
  ownStories_of (after m Sample.w0) 1 = Some [Sample.s2] ∧
  favorites_of (after m Sample.w0) 1 = Some [].
Proof.
  destruct (removeStory_removes_storyId Sample.server_ok Sample.w0 1 1 "sid1"
              Sample.bob [Sample.s1; Sample.s2] [Sample.s2] [Sample.s1]
              (mkData (Some [Sample.storyObj3]) (Some Sample.storyObj3)
                 (Some Sample.bobObj) (Js.str "tok")))
    as (Ho & st' & own' & fav' & Hst & Hown & Hfav & _ & -> & -> & ->);
    [reflexivity..|].
  repeat split; assumption.
Defined.

(** ** class StoryList: addStory *)

Section AddStory.

Variable server : list Request → Request → Reply.

Lemma addStory_wp w this user title author url sl u l_st l_own data storyObj :
  storyLists w !! this = Some sl →
  users w !! user = Some u →
  arrays w !! StoryList.stories sl = Some l_st →
  arrays w !! User.ownStories u = Some l_own →
  StoryList.stories sl ≠ User.ownStories u →
  server (sent w) (request_addStory u title author url) = Response data →
  data_story data = Some storyObj →
  wp (addStory server this user title author url) w (λ o w',
    o = Resolved (Story.new storyObj) ∧
    stories_of w' this = Some (Story.new storyObj :: l_st) ∧
    ownStories_of w' user = Some (Story.new storyObj :: l_own)).
Proof.
  intros Hsl Hu Hst Hown Hne Hsrv Hstory. unfold addStory.
  apply wp_bind. eapply wp_get_user; [done|].
  apply wp_bind. eapply wp_axios_Response; [done|].
  apply wp_bind. eapply wp_prop_Some; [done|].
  apply wp_bind. eapply wp_get_storyList; [done|].
  apply wp_bind. eapply wp_unshift; [done|].
  apply wp_bind. eapply wp_get_user; [done|].
  apply wp_bind. eapply wp_unshift; [solve_lookup|].
  apply wp_ret.
  unfold stories_of, ownStories_of. simpl. by simplify_map_eq.
Qed.

(** C2, as the code has it.  For a list and a user whose [stories] and
    [ownStories] are two arrays, as they are for every list and user the
    methods build: when [addStory(user, {title, author, url})] completes
    successfully, it returns the Story built from the response; that Story
    is the first entry of the list's stories and of [user.ownStories]; the
    stories are one more than before, the former entries following in
    order. *)
Theorem addStory_prepends w this user title author url sl u l_st l_own data
    storyObj :
  storyLists w !! this = Some sl →
  users w !! user = Some u →
  arrays w !! StoryList.stories sl = Some l_st →
  arrays w !! User.ownStories u = Some l_own →
  StoryList.stories sl ≠ User.ownStories u →
  server (sent w) (request_addStory u title author url) = Response data →
  data_story data = Some storyObj →
  let m := addStory server this user title author url in
  ∃ story st' own',
    story = Story.new storyObj ∧
    outcome m w = Resolved story ∧
    stories_of (after m w) this = Some st' ∧
    ownStories_of (after m w) user = Some own' ∧
    head st' = Some story ∧ head own' = Some story ∧
    length st' = S (length l_st) ∧
    st' = story :: l_st ∧ own' = story :: l_own.
Proof.
  intros Hsl Hu Hst Hown Hne Hsrv Hstory m.
  destruct (addStory_wp w this user title author url sl u l_st l_own data
              storyObj) as (Ho & Hst' & Hown'); try done.
  eexists _, _, _. repeat split; try done.
Qed.

(** [addStory] writes no object: the fields of every User and of every
    StoryList are as before, whatever the outcome. *)
Lemma addStory_objects w this user title author url :
  let w' := after (addStory server this user title author url) w in
  users w' = users w ∧ storyLists w' = storyLists w.
Proof.
  change (wp (addStory server this user title author url) w
            (λ _ w', users w' = users w ∧ storyLists w' = storyLists w)).
  unfold addStory. apply wp_bind.
  apply wp_get_user_any; [intros u Hu|done].
  apply wp_bind, wp_axios_any; [intros data Hdata|done].
  apply wp_bind, wp_prop_any; [intros storyObj Hstory|done].
  apply wp_bind, wp_get_storyList_any; [intros sl Hsl|done].
  apply wp_bind, wp_unshift_any; [intros l_st Hst|done].
  apply wp_bind, wp_get_user_any; [intros u' Hu'|done].
  apply wp_bind, wp_unshift_any; [intros l_own Hown|done].
  done.
Qed.

(** [addStory] writes two arrays at most: the list's stories and the
    user's own stories. *)
Lemma addStory_arrays w this user title author url sl u r :
  storyLists w !! this = Some sl →
  users w !! user = Some u →
  r ≠ StoryList.stories sl → r ≠ User.ownStories u →
  arrays (after (addStory server this user title author url) w) !! r
    = arrays w !! r.
Proof.
  intros Hsl Hu Hr1 Hr2.
  change (wp (addStory server this user title author url) w
            (λ _ w', arrays w' !! r = arrays w !! r)).
  unfold addStory. apply wp_bind.
  eapply wp_get_user; [done|].
  apply wp_bind, wp_axios_any; [intros data Hdata|done].
  apply wp_bind, wp_prop_any; [intros storyObj Hstory|done].
  apply wp_bind. eapply wp_get_storyList; [done|].
  apply wp_bind, wp_unshift_any; [intros l_st Hst|done].
  apply wp_bind. eapply wp_get_user; [done|].
  apply wp_bind, wp_unshift_any; [intros l_own Hown|intros _]; simpl.
  - apply wp_ret. simpl. by simplify_map_eq.
  - by simplify_map_eq.
Qed.

(** When the request fails, [addStory] rejects before it has touched an
    array. *)
Lemma addStory_failure w this user title author url u message :
  users w !! user = Some u →
  server (sent w) (request_addStory u title author url) = Failure message →
  addStory server this user title author url w
    = (Rejected (AxiosError message),
       upd_sent (request_addStory u title author url) w).
Proof.
  intros Hu Hsrv. unfold addStory, mbind, Eff_bind, get_user, axios.
  rewrite Hu. unfold request_addStory in Hsrv. by rewrite Hsrv.
Qed.

End AddStory.

(** The theorem at the sample world: the reply carries the story "sid3". *)
Lemma addStory_prepends_witness :
  let m := addStory Sample.server_ok 1 1 "T" "A" "U" in
  ∃ story st' own',
    story = Story.new Sample.storyObj3 ∧
    outcome m Sample.w0 = Resolved story ∧
    stories_of (after m Sample.w0) 1 = Some st' ∧
    ownStories_of (after m Sample.w0) 1 = Some own' ∧
    head st' = Some story ∧ head own' = Some story ∧
    length st' = 3 ∧
    st' = [story; Sample.s1; Sample.s2] ∧ own' = [story; Sample.s2].
Proof.
  apply (addStory_prepends Sample.server_ok Sample.w0 1 1 "T" "A" "U"
           Sample.feed Sample.bob [Sample.s1; Sample.s2] [Sample.s2]
           (mkData (Some [Sample.storyObj3]) (Some Sample.storyObj3)
              (Some Sample.bobObj) (Js.str "tok")) Sample.storyObj3);
    first [reflexivity | by vm_compute].
Defined.

(** C2 as the specification has it fails for a list and a user that share
    one array, as in [Sample.w_shared], where the list was made from
    [user.ownStories]: [addStory] resolves, the two [unshift] go to that one
    array, and the stories are two more than before, not one. *)
Lemma addStory_shared_array :
  let m := addStory Sample.server_ok 1 1 "T" "A" "U" in
  let story := Story.new Sample.storyObj3 in
  stories_of Sample.w_shared 1 = Some [Sample.s2] ∧
  ownStories_of Sample.w_shared 1 = Some [Sample.s2] ∧
  outcome m Sample.w_shared = Resolved story ∧
  stories_of (after m Sample.w_shared) 1 = Some [story; story; Sample.s2] ∧
  ownStories_of (after m Sample.w_shared) 1
    = Some [story; story; Sample.s2] ∧
  length <$> stories_of (after m Sample.w_shared) 1
    = Some (2 + length [Sample.s2]).
Proof. repeat split. Qed.

(** ** class User: addFavorite, removeFavorite, isFavorite *)

Section Favorites.

Variable server : list Request → Request → Reply.

(** [addFavorite] in one step: the story is pushed, then the request is
    sent, and the method settles as the request does. *)
Lemma addFavorite_run w this story u fav :
  users w !! this = Some u →
  arrays w !! User.favorites u = Some fav →
  addFavorite server this story w
    = (settled (server (sent w) (request_favorite POST u story)),
       upd_sent (request_favorite POST u story)
         (upd_array (User.favorites u) (fav ++ [story]) w)).
Proof.
  intros Hu Hfav.
  unfold addFavorite, _addOrRemoveFavorite, Array.push, Array.read,
    Array.write, get_user, axios, mbind, Eff_bind, mret, Eff_ret.
  rewrite Hu, Hfav. simpl. rewrite Hu. unfold request_favorite.
  by destruct (server _ _).
Qed.

(** [removeFavorite] in one step: [this.favorites] becomes a new array,
    the old one filtered, then the request is sent. *)
Lemma removeFavorite_run w this story u fav :
  users w !! this = Some u →
  arrays w !! User.favorites u = Some fav →
  let r := fresh (dom (arrays w)) in
  let u' := User.mk (User.username u) (User.name u) (User.createdAt u)
              (User.updatedAt u) (User.loginToken u) r (User.ownStories u) in
  removeFavorite server this story w
    = (settled (server (sent w) (request_favorite DELETE u story)),
       upd_sent (request_favorite DELETE u story)
         (upd_user this u'
            (upd_array r
               (List.filter (storyId_differs (Story.storyId story)) fav)
               w))).
Proof.
  intros Hu Hfav r u'.
  unfold removeFavorite, _addOrRemoveFavorite, set_favorites, Array.filter,
    Array.read, Array.alloc, get_user, put_user, axios, mbind, Eff_bind,
    mret, Eff_ret.
  rewrite Hu, Hfav. simpl. rewrite Hu. simpl. rewrite lookup_insert_eq.
  unfold request_favorite. simpl. by destruct (server _ _).
Qed.

Lemma isFavorite_run w this story u fav :
  users w !! this = Some u →
  arrays w !! User.favorites u = Some fav →
  isFavorite this story w
    = (Resolved (existsb (storyId_is (Story.storyId story)) fav), w).
Proof.
  intros Hu Hfav.
  unfold isFavorite, Array.some, Array.read, get_user, mbind, Eff_bind,
    mret, Eff_ret.
  by rewrite Hu, Hfav.
Qed.

(** [isFavorite] leaves the world as it is, whatever it settles with. *)
Lemma isFavorite_pure w this story : after (isFavorite this story) w = w.
Proof.
  unfold after, isFavorite, Array.some, Array.read, get_user, mbind,
    Eff_bind, mret, Eff_ret.
  destruct (users w !! this) as [u|]; [|done].
  by destruct (arrays w !! User.favorites u).
Qed.

Lemma existsb_storyId_is storyId l :
  existsb (storyId_is storyId) l = true ↔
  ∃ s, s ∈ l ∧ Story.storyId s = storyId.
Proof.
  rewrite existsb_exists. unfold storyId_is.
  split; intros (s & Hs & H); exists s.
  - apply bool_decide_eq_true in H. by rewrite list_elem_of_In.
  - rewrite <- list_elem_of_In. by rewrite bool_decide_eq_true.
Qed.

Lemma existsb_is_after_push story fav :
  existsb (storyId_is (Story.storyId story)) (fav ++ [story]) = true.
Proof.
  apply existsb_storyId_is. exists story. split; [|done].
  apply elem_of_app. right. apply list_elem_of_singleton. done.
Qed.

Lemma existsb_is_after_filter storyId l :
  existsb (storyId_is storyId) (List.filter (storyId_differs storyId) l)
    = false.
Proof.
  apply not_true_is_false. rewrite existsb_storyId_is.
  intros (s & Hs & H). by apply filter_differs_spec in Hs.
Qed.

(** C6.  [isFavorite(story)] is true exactly when favorites holds a Story
    with the storyId of [story], and changes nothing; it is true after
    [addFavorite(story)] and false after a [removeFavorite(story)] that
    follows, whatever the service replies to either request; and asked
    twice in a row it answers the same. *)
Theorem isFavorite_follows_favorites w this story u fav :
  users w !! this = Some u →
  arrays w !! User.favorites u = Some fav →
  let w1 := after (addFavorite server this story) w in
  let w2 := after (removeFavorite server this story) w1 in
  (∃ b, isFavorite this story w = (Resolved b, w) ∧
        (b = true ↔
         ∃ s, s ∈ fav ∧ Story.storyId s = Story.storyId story)) ∧
  isFavorite this story w1 = (Resolved true, w1) ∧
  isFavorite this story w2 = (Resolved false, w2) ∧
  (∀ w0, isFavorite this story (after (isFavorite this story) w0)
         = isFavorite this story w0).
Proof.
  intros Hu Hfav w1 w2.
  assert (Hw1 : w1 = upd_sent (request_favorite POST u story)
                  (upd_array (User.favorites u) (fav ++ [story]) w)).
  { unfold w1, after. by erewrite addFavorite_run. }
  assert (Hu1 : users w1 !! this = Some u) by by rewrite Hw1.
  assert (Hfav1 : arrays w1 !! User.favorites u = Some (fav ++ [story])).
  { rewrite Hw1. simpl. by rewrite lookup_insert_eq. }
  repeat split.
  - eexists. split; [by eapply isFavorite_run|]. apply existsb_storyId_is.
  - erewrite isFavorite_run by done. by rewrite existsb_is_after_push.
  - unfold w2, after.
    rewrite (removeFavorite_run w1 this story u (fav ++ [story])) by done.
    simpl. erewrite isFavorite_run.
    + by rewrite existsb_is_after_filter.
    + simpl. by rewrite lookup_insert_eq.
    + simpl. by rewrite lookup_insert_eq.
  - intros w0. by rewrite isFavorite_pure.
Qed.

End Favorites.

(** The theorem at the sample world, for the story "sid2", which is not a
    favorite of bob, and a service that is down. *)
Lemma isFavorite_follows_favorites_witness :
  let w1 := after (addFavorite Sample.server_down 1 Sample.s2) Sample.w0 in
  let w2 := after (removeFavorite Sample.server_down 1 Sample.s2) w1 in
  outcome (isFavorite 1 Sample.s2) Sample.w0 = Resolved false ∧
  outcome (isFavorite 1 Sample.s2) w1 = Resolved true ∧
  outcome (isFavorite 1 Sample.s2) w2 = Resolved false.
Proof.
  destruct (isFavorite_follows_favorites Sample.server_down Sample.w0 1
              Sample.s2 Sample.bob [Sample.s1])
    as ((b & Hb & _) & H1 & H2 & _); [reflexivity..|].
  unfold outcome. rewrite H1, H2. repeat split.
Defined.

(** ** Local changes and the outcome of the request *)

Section FailedRequests.

Variable server : list Request → Request → Reply.

(** C4, as the code has it.  [addFavorite] and [removeFavorite] change
    [this.favorites] before they send their request: when the request
    fails the method rejects and the change stays.  [addStory] sends its
    request first: when it fails the method rejects and no array and no
    object has changed. *)
Theorem failed_request_local_state :
  (∀ w this story u fav message,
     users w !! this = Some u →
     arrays w !! User.favorites u = Some fav →
     server (sent w) (request_favorite POST u story) = Failure message →
     let m := addFavorite server this story in
     outcome m w = Rejected (AxiosError message) ∧
     favorites_of (after m w) this = Some (fav ++ [story])) ∧
  (∀ w this story u fav message,
     users w !! this = Some u →
     arrays w !! User.favorites u = Some fav →
     server (sent w) (request_favorite DELETE u story) = Failure message →
     let m := removeFavorite server this story in
     outcome m w = Rejected (AxiosError message) ∧
     favorites_of (after m w) this
       = Some (List.filter
                 (λ s, bool_decide (Story.storyId s ≠ Story.storyId story))
                 fav)) ∧
  (∀ w this user title author url u message,
     users w !! user = Some u →
     server (sent w) (request_addStory u title author url)
       = Failure message →
     let m := addStory server this user title author url in
     outcome m w = Rejected (AxiosError message) ∧
     arrays (after m w) = arrays w ∧
     users (after m w) = users w ∧
     storyLists (after m w) = storyLists w).
Proof.
  split; [|split].
  - intros w this story u fav message Hu Hfav Hsrv m.
    unfold m, outcome, after. erewrite addFavorite_run by done.
    rewrite Hsrv. split; [done|].
    unfold favorites_of. simpl. rewrite Hu. simpl.
    by rewrite lookup_insert_eq.
  - intros w this story u fav message Hu Hfav Hsrv m.
    unfold m, outcome, after. erewrite removeFavorite_run by done.
    rewrite Hsrv. split; [done|].
    unfold favorites_of. simpl. rewrite lookup_insert_eq. simpl.
    by rewrite lookup_insert_eq.
  - intros w this user title author url u message Hu Hsrv m.
    unfold m, outcome, after. by erewrite addStory_failure.
Qed.

End FailedRequests.

(** The theorem at the sample world, with the service down. *)
Lemma failed_request_local_state_witness :
  favorites_of
    (after (addFavorite Sample.server_down 1 Sample.s2) Sample.w0) 1
    = Some [Sample.s1; Sample.s2] ∧
  favorites_of
    (after (removeFavorite Sample.server_down 1 Sample.s1) Sample.w0) 1
    = Some [] ∧
  arrays (after (addStory Sample.server_down 1 1 "T" "A" "U") Sample.w0)
    = arrays Sample.w0.
Proof.
  destruct (failed_request_local_state Sample.server_down)
    as (Hadd & Hremove & HaddStory).
  split; [|split].
  - apply (Hadd Sample.w0 1%positive Sample.s2 Sample.bob [Sample.s1]
             "Network Error"); reflexivity.
  - apply (Hremove Sample.w0 1%positive Sample.s1 Sample.bob [Sample.s1]
             "Network Error"); reflexivity.
  - apply (HaddStory Sample.w0 1%positive 1%positive "T" "A" "U" Sample.bob
             "Network Error"); reflexivity.
Defined.

(** C4 as the specification has it fails for [addStory]: with the service
    down, [addStory] rejects, and the feed and bob's own stories are what
    they were: there is no local change to be left in place. *)
Lemma addStory_failure_leaves_no_change :
  let m := addStory Sample.server_down 1 1 "T" "A" "U" in
  outcome m Sample.w0 = Rejected (AxiosError "Network Error") ∧
  stories_of (after m Sample.w0) 1 = stories_of Sample.w0 1 ∧
  ownStories_of (after m Sample.w0) 1 = ownStories_of Sample.w0 1 ∧
  stories_of (after m Sample.w0) 1 = Some [Sample.s1; Sample.s2] ∧
  ownStories_of (after m Sample.w0) 1 = Some [Sample.s2].
Proof. repeat split. Qed.

(** ** The lists and duplicate storyIds *)

Lemma no_duplicates_filter p l :
  no_duplicates l → no_duplicates (List.filter p l).
Proof.
  unfold no_duplicates. induction l as [|s l IH]; simpl; [done|].
  rewrite NoDup_cons. intros [Hs Hl]. destruct (p s); simpl; [|by apply IH].
  apply NoDup_cons. split; [|by apply IH].
  rewrite list_elem_of_fmap. intros (s' & Heq & Hs').
  apply Hs. rewrite list_elem_of_fmap. exists s'. split; [done|].
  apply list_elem_of_In, filter_In in Hs'. apply list_elem_of_In, Hs'.
Qed.

Lemma no_duplicates_cons story l :
  no_duplicates l →
  (∀ s, s ∈ l → Story.storyId s ≠ Story.storyId story) →
  no_duplicates (story :: l).
Proof.
  unfold no_duplicates. intros Hl Hnew. simpl. apply NoDup_cons.
  split; [|done]. rewrite list_elem_of_fmap. intros (s & Heq & Hs).
  by apply (Hnew s).
Qed.

Lemma no_duplicates_push story l :
  no_duplicates l →
  existsb (storyId_is (Story.storyId story)) l = false →
  no_duplicates (l ++ [story]).
Proof.
  unfold no_duplicates. intros Hl Hnew. rewrite fmap_app. simpl.
  apply NoDup_app. split; [done|]. split; [|apply NoDup_singleton].
  intros i Hi Hi'. apply list_elem_of_singleton in Hi'. subst i.
  apply list_elem_of_fmap in Hi as (s & Heq & Hs).
  apply not_true_iff_false in Hnew. apply Hnew, existsb_storyId_is.
  by exists s.
Qed.

Lemma user_inv_iff w user :
  user_inv w user ↔
  ∃ u fav own,
    users w !! user = Some u ∧
    arrays w !! User.favorites u = Some fav ∧
    arrays w !! User.ownStories u = Some own ∧
    no_duplicates fav ∧ no_duplicates own.
Proof.
  unfold user_inv, favorites_of, ownStories_of. split.
  - destruct (users w !! user) as [u|]; simpl; [|done].
    destruct (arrays w !! User.favorites u) as [fav|] eqn:Hfav;
      simpl; [|done].
    destruct (arrays w !! User.ownStories u) as [own|] eqn:Hown;
      simpl; [|done].
    intros [??]. by exists u, fav, own.
  - intros (u & fav & own & -> & Hfav & Hown & ? & ?). simpl.
    by rewrite Hfav, Hown.
Qed.

Lemma storyList_inv_iff w this :
  storyList_inv w this ↔
  ∃ sl st,
    storyLists w !! this = Some sl ∧
    arrays w !! StoryList.stories sl = Some st ∧
    no_duplicates st.
Proof.
  unfold storyList_inv, stories_of. split.
  - destruct (storyLists w !! this) as [sl|]; simpl; [|done].
    destruct (arrays w !! StoryList.stories sl) as [st|] eqn:Hst;
      simpl; [|done].
    intros ?. by exists sl, st.
  - intros (sl & st & -> & Hst & ?). simpl. by rewrite Hst.
Qed.

Section Duplicates.

Variable server : list Request → Request → Reply.

Lemma removeStory_failure w this user storyId u message :
  users w !! user = Some u →
  server (sent w) (request_removeStory u storyId) = Failure message →
  removeStory server this user storyId w
    = (Rejected (AxiosError message),
       upd_sent (request_removeStory u storyId) w).
Proof.
  intros Hu Hsrv. unfold removeStory, mbind, Eff_bind, get_user, axios.
  rewrite Hu. unfold request_removeStory in Hsrv. by rewrite Hsrv.
Qed.

Lemma addStory_no_story w this user title author url u data :
  users w !! user = Some u →
  server (sent w) (request_addStory u title author url) = Response data →
  data_story data = None →
  addStory server this user title author url w
    = (Rejected TypeError, upd_sent (request_addStory u title author url) w).
Proof.
  intros Hu Hsrv Hnone.
  unfold addStory, mbind, Eff_bind, get_user, axios.
  rewrite Hu. unfold request_addStory in Hsrv. rewrite Hsrv.
  by rewrite Hnone.
Qed.

Lemma removeFavorite_inv w this user story :
  user_inv w user → storyList_inv w this →
  let w' := after (removeFavorite server user story) w in
  user_inv w' user ∧ storyList_inv w' this.
Proof.
  rewrite user_inv_iff, storyList_inv_iff.
  intros (u & fav & own & Hu & Hfav & Hown & Hnd1 & Hnd2)
         (sl & st & Hsl & Hst & Hnd3) w'.
  unfold w', after. rewrite (removeFavorite_run server w user story u fav)
    by done.
  pose proof (fresh_None (arrays w)) as Hfresh. simpl.
  rewrite user_inv_iff, storyList_inv_iff. split.
  - eexists _, _, own. simpl. rewrite lookup_insert_eq. split; [done|].
    simpl. rewrite lookup_insert_eq. split; [done|].
    rewrite lookup_insert_ne by congruence.
    auto using no_duplicates_filter.
  - exists sl, st. simpl. rewrite lookup_insert_ne by congruence. done.
Qed.

Lemma removeStory_inv w this user storyId :
  user_inv w user → storyList_inv w this →
  let w' := after (removeStory server this user storyId) w in
  user_inv w' user ∧ storyList_inv w' this.
Proof.
  intros Hinv1 Hinv2 w'. pose proof Hinv1 as Hinv1'. pose proof Hinv2 as Hinv2'.
  apply user_inv_iff in Hinv1' as
    (u & fav & own & Hu & Hfav & Hown & Hnd1 & Hnd2).
  apply storyList_inv_iff in Hinv2' as (sl & st & Hsl & Hst & Hnd3).
  destruct (server (sent w) (request_removeStory u storyId))
    as [data|message] eqn:Hsrv.
  - destruct (removeStory_wp server w this user storyId sl u st own fav data)
      as (_ & Hst' & Hown' & Hfav'); try done.
    unfold user_inv, storyList_inv. fold w' in Hst', Hown', Hfav'.
    rewrite Hst', Hown', Hfav'. auto using no_duplicates_filter.
  - unfold w', after. erewrite removeStory_failure by done. done.
Qed.

Lemma addFavorite_inv w this user story :
  user_inv w user → storyList_inv w this →
  outcome (isFavorite user story) w = Resolved false →
  let w' := after (addFavorite server user story) w in
  user_inv w' user ∧ storyList_inv w' this.
Proof.
  rewrite user_inv_iff, storyList_inv_iff.
  intros (u & fav & own & Hu & Hfav & Hown & Hnd1 & Hnd2)
         (sl & st & Hsl & Hst & Hnd3) Hnot w'.
  unfold outcome in Hnot. erewrite isFavorite_run in Hnot by done.
  simpl in Hnot. injection Hnot as Hnot.
  unfold w', after. erewrite addFavorite_run by done. simpl.
  pose proof (no_duplicates_push story fav Hnd1 Hnot) as Hnd.
  rewrite user_inv_iff, storyList_inv_iff. split.
  - exists u. simpl. rewrite lookup_insert_eq. rewrite lookup_insert.
    case_decide as Heq.
    + by eexists _, _.
    + by eexists _, _.
  - exists sl. simpl. rewrite lookup_insert. case_decide as Heq.
    + by eexists.
    + by eexists.
Qed.

Lemma addStory_inv w this user title author url sl u l_st l_own :
  user_inv w user → storyList_inv w this →
  storyLists w !! this = Some sl → users w !! user = Some u →
  arrays w !! StoryList.stories sl = Some l_st →
  arrays w !! User.ownStories u = Some l_own →
  StoryList.stories sl ≠ User.ownStories u →
  (∀ data storyObj,
     server (sent w) (request_addStory u title author url) = Response data →
     data_story data = Some storyObj →
     ∀ s, s ∈ l_st ++ l_own → Story.storyId s ≠ StoryObj.storyId storyObj) →
  let w' := after (addStory server this user title author url) w in
  user_inv w' user ∧ storyList_inv w' this.
Proof.
  intros Hinv1 Hinv2 Hsl Hu Hst Hown Hne Hnew w'.
  destruct (server (sent w) (request_addStory u title author url))
    as [data|message] eqn:Hsrv;
    [destruct (data_story data) as [storyObj|] eqn:Hstory|].
  - specialize (Hnew data storyObj eq_refl Hstory).
    apply user_inv_iff in Hinv1 as
      (u1 & fav & own & Hu1 & Hfav & Hown1 & Hnd1 & Hnd2).
    apply storyList_inv_iff in Hinv2 as (sl1 & st & Hsl1 & Hst1 & Hnd3).
    assert (u1 = u) by congruence; subst u1.
    assert (sl1 = sl) by congruence; subst sl1.
    assert (own = l_own) by congruence; subst own.
    assert (st = l_st) by congruence; subst st.
    assert (Hnd_st : no_duplicates (Story.new storyObj :: l_st)).
    { apply no_duplicates_cons; [done|]. intros s Hs. apply Hnew.
      apply elem_of_app. by left. }
    assert (Hnd_own : no_duplicates (Story.new storyObj :: l_own)).
    { apply no_duplicates_cons; [done|]. intros s Hs. apply Hnew.
      apply elem_of_app. by right. }
    destruct (addStory_wp server w this user title author url sl u l_st
                l_own data storyObj) as (_ & Hst' & Hown'); try done.
    destruct (addStory_objects server w this user title author url)
      as [Husers Hlists].
    fold w' in Hst', Hown', Husers, Hlists.
    unfold storyList_inv. rewrite Hst'. split; [|done].
    unfold user_inv. rewrite Hown'.
    unfold favorites_of. rewrite Husers, Hu. simpl.
    destruct (decide (User.favorites u = StoryList.stories sl)) as [Heq|Hn1].
    { apply stories_of_Some in Hst' as (sl' & Hsl' & Hst').
      rewrite Hlists in Hsl'. simplify_eq. rewrite Heq, Hst'. done. }
    destruct (decide (User.favorites u = User.ownStories u)) as [Heq|Hn2].
    { apply ownStories_of_Some in Hown' as (u' & Hu' & Hown').
      rewrite Husers in Hu'. simplify_eq. rewrite Heq, Hown'. done. }
    unfold w'. erewrite addStory_arrays by done. by rewrite Hfav.
  - unfold w', after. erewrite addStory_no_story by done. done.
  - unfold w', after. erewrite addStory_failure by done. done.
Qed.

(** C3, as the code has it.  [removeFavorite] and [removeStory] keep the
    lists free of duplicate storyIds.  [addFavorite] does when the story is
    not a favorite already, and [addStory] does when the storyId of the
    story in the response is in neither the list's stories nor the user's
    own stories (these being two arrays): neither method looks for the
    storyId before it adds. *)
Theorem no_duplicates_preserved :
  (∀ w this user story,
     user_inv w user → storyList_inv w this →
     let w' := after (removeFavorite server user story) w in
     user_inv w' user ∧ storyList_inv w' this) ∧
  (∀ w this user storyId,
     user_inv w user → storyList_inv w this →
     let w' := after (removeStory server this user storyId) w in
     user_inv w' user ∧ storyList_inv w' this) ∧
  (∀ w this user story,
     user_inv w user → storyList_inv w this →
     outcome (isFavorite user story) w = Resolved false →
     let w' := after (addFavorite server user story) w in
     user_inv w' user ∧ storyList_inv w' this) ∧
  (∀ w this user title author url sl u l_st l_own,
     user_inv w user → storyList_inv w this →
     storyLists w !! this = Some sl → users w !! user = Some u →
     arrays w !! StoryList.stories sl = Some l_st →
     arrays w !! User.ownStories u = Some l_own →
     StoryList.stories sl ≠ User.ownStories u →
     (∀ data storyObj,
        server (sent w) (request_addStory u title author url)
          = Response data →
        data_story data = Some storyObj →
        ∀ s, s ∈ l_st ++ l_own →
             Story.storyId s ≠ StoryObj.storyId storyObj) →
     let w' := after (addStory server this user title author url) w in
     user_inv w' user ∧ storyList_inv w' this).
Proof.
  split; [|split; [|split]].
  - apply removeFavorite_inv.
  - apply removeStory_inv.
  - apply addFavorite_inv.
  - apply addStory_inv.
Qed.

End Duplicates.

(** The theorem at the sample world: "sid2" is not a favorite of bob, and
    the service answers [addStory] with the new story "sid3". *)
Lemma no_duplicates_preserved_witness :
  (let w' := after (addFavorite Sample.server_ok 1 Sample.s2) Sample.w0 in
   user_inv w' 1 ∧ storyList_inv w' 1) ∧
  (let w' := after (addStory Sample.server_ok 1 1 "T" "A" "U") Sample.w0 in
   user_inv w' 1 ∧ storyList_inv w' 1).
Proof.
  destruct (no_duplicates_preserved Sample.server_ok)
    as (_ & _ & HaddFavorite & HaddStory).
  split.
  - apply (HaddFavorite Sample.w0 1%positive 1%positive Sample.s2).
    + apply (bool_decide_unpack _). by vm_compute.
    + apply (bool_decide_unpack _). by vm_compute.
    + reflexivity.
  - apply (HaddStory Sample.w0 1%positive 1%positive "T" "A" "U" Sample.feed
             Sample.bob [Sample.s1; Sample.s2] [Sample.s2]).
    + apply (bool_decide_unpack _). by vm_compute.
    + apply (bool_decide_unpack _). by vm_compute.
    + reflexivity.
    + reflexivity.
    + reflexivity.
    + reflexivity.
    + by vm_compute.
    + intros data storyObj Hdata Hstory. unfold Sample.server_ok in Hdata.
      injection Hdata as <-. injection Hstory as <-.
      apply Forall_forall. apply (bool_decide_unpack _). by vm_compute.
Defined.

(** C3 as the specification has it fails for [addFavorite]: bob's lists
    have no duplicate, "sid1" is a favorite of bob, and after
    [addFavorite] of that story the favorites hold it twice. *)
Lemma addFavorite_duplicates_favorite :
  let w' := after (addFavorite Sample.server_ok 1 Sample.s1) Sample.w0 in
  user_inv Sample.w0 1 ∧ storyList_inv Sample.w0 1 ∧
  outcome (addFavorite Sample.server_ok 1 Sample.s1) Sample.w0
    = Resolved () ∧
  favorites_of w' 1 = Some [Sample.s1; Sample.s1] ∧
  ¬ user_inv w' 1.
Proof.
  split; [|split; [|split; [|split]]].
  - apply (bool_decide_unpack _). by vm_compute.
  - apply (bool_decide_unpack _). by vm_compute.
  - reflexivity.
  - reflexivity.
  - apply (bool_decide_eq_false_1 _). by vm_compute.
Qed.

(** ** What addStory and removeStory leave alone *)


Ltac profile_kept :=
  intros; eexists; split;
  [simpl; by simplify_map_eq | by repeat split].

Section Frame.

Variable server : list Request → Request → Reply.

(** [removeStory] assigns [user.ownStories] and [user.favorites] and no
    other field of [user], however far it gets. *)
Lemma removeStory_profile w this user storyId u :
  users w !! user = Some u →
  ∃ u', users (after (removeStory server this user storyId) w) !! user
          = Some u' ∧
        same_profile u u'.
Proof.
  intros Hu.
  change (wp (removeStory server this user storyId) w
            (λ _ w', ∃ u', users w' !! user = Some u' ∧ same_profile u u')).
  unfold removeStory.
  apply wp_bind. eapply wp_get_user; [done|].
  apply wp_bind, wp_axios_any; [intros data Hdata|profile_kept].
  apply wp_bind, wp_get_storyList_any; [intros sl Hsl|profile_kept].
  apply wp_bind, wp_filter_any; [intros l_st r1 Hst Hr1|profile_kept].
  apply wp_bind, wp_set_stories_any; [intros _ _|profile_kept].
  apply wp_bind. eapply wp_get_user; [done|].
  apply wp_bind, wp_filter_any; [intros l_own r2 Hown Hr2|profile_kept].
  apply wp_bind. eapply wp_set_ownStories; [done|].
  apply wp_bind. eapply wp_get_user; [solve_lookup|].
  apply wp_bind, wp_filter_any; [intros l_fav r3 Hfav Hr3|profile_kept].
  eapply wp_set_favorites; [solve_lookup|].
  profile_kept.
Qed.


End Frame.


(** ** class User: create, login, getLoggedInUser *)

Section Accounts.

Variable server : list Request → Request → Reply.

Lemma create_wp w username password name data userObj :
  server (sent w) (request_signup username password name) = Response data →
  data_user data = Some userObj →
  wp (create server username password name) w (λ o w',
    ∃ this u,
      o = Resolved this ∧
      users w !! this = None ∧
      users w' !! this = Some u ∧
      User.username u = UserObj.username userObj ∧
      User.name u = UserObj.name userObj ∧
      User.createdAt u = UserObj.createdAt userObj ∧
      User.updatedAt u = UserObj.updatedAt userObj ∧
      User.loginToken u = data_token data ∧
      favorites_of w' this = Some [] ∧
      ownStories_of w' this = Some []).
Proof.
  intros Hsrv Huser. unfold create.
  apply wp_bind. eapply wp_axios_Response; [done|].
  apply wp_bind. eapply wp_prop_Some; [done|].
  apply wp_bind, wp_new_User. intros fav own this Hfav Hown Hne Hthis.
  apply wp_bind. eapply wp_set_loginToken; [solve_lookup|].
  apply wp_ret. eexists this, _. split; [done|]. split; [done|].
  split; [solve_lookup|]. simpl.
  unfold favorites_of, ownStories_of. simpl. by simplify_map_eq.
Qed.

Lemma login_wp w username password data userObj :
  server (sent w) (request_login username password) = Response data →
  data_user data = Some userObj →
  wp (login server username password) w (λ o w',
    ∃ this u,
      o = Resolved this ∧
      users w !! this = None ∧
      users w' !! this = Some u ∧
      User.username u = UserObj.username userObj ∧
      User.name u = UserObj.name userObj ∧
      User.loginToken u = data_token data ∧
      favorites_of w' this
        = Some (map Story.new (UserObj.favorites userObj)) ∧
      ownStories_of w' this
        = Some (map Story.new (UserObj.stories userObj))).
Proof.
  intros Hsrv Huser. unfold login.
  apply wp_bind. eapply wp_axios_Response; [done|].
  apply wp_bind. eapply wp_prop_Some; [done|].
  apply wp_bind, wp_new_User. intros fav0 own0 this Hfav0 Hown0 Hne Hthis.
  apply wp_bind, wp_of_records. intros fav Hfav.
  apply wp_bind. eapply wp_set_favorites; [solve_lookup|].
  apply wp_bind, wp_of_records. intros own Hown.
  apply wp_bind. eapply wp_set_ownStories; [solve_lookup|].
  apply wp_bind. eapply wp_set_loginToken; [solve_lookup|].
  apply wp_ret. eexists this, _. split; [done|]. split; [done|].
  split; [solve_lookup|]. simpl.
  unfold favorites_of, ownStories_of. simpl in *. split_fresh.
  by simplify_map_eq.
Qed.

Lemma getLoggedInUser_wp w token username data userObj :
  Js.truthy token = true → Js.truthy username = true →
  server (sent w) (request_user token username) = Response data →
  data_user data = Some userObj →
  wp (getLoggedInUser server token username) w (λ o w',
    ∃ this u,
      o = Resolved (Some this) ∧
      users w !! this = None ∧
      users w' !! this = Some u ∧
      User.username u = UserObj.username userObj ∧
      User.name u = UserObj.name userObj ∧
      User.loginToken u = token ∧
      favorites_of w' this
        = Some (map Story.new (UserObj.favorites userObj)) ∧
      ownStories_of w' this
        = Some (map Story.new (UserObj.stories userObj))).
Proof.
  intros Htoken Husername Hsrv Huser. unfold getLoggedInUser, Js.not.
  rewrite Htoken, Husername. simpl.
  apply wp_bind. eapply wp_axios_Response; [done|].
  apply wp_bind. eapply wp_prop_Some; [done|].
  apply wp_bind, wp_new_User. intros fav0 own0 this Hfav0 Hown0 Hne Hthis.
  apply wp_bind. eapply wp_set_loginToken; [solve_lookup|].
  apply wp_bind, wp_of_records. intros fav Hfav.
  apply wp_bind. eapply wp_set_favorites; [solve_lookup|].
  apply wp_bind, wp_of_records. intros own Hown.
  apply wp_bind. eapply wp_set_ownStories; [solve_lookup|].
  apply wp_ret. eexists this, _. split; [done|]. split; [done|].
  split; [solve_lookup|]. simpl.
  unfold favorites_of, ownStories_of. simpl in *. split_fresh.
  by simplify_map_eq.
Qed.

(** With a token and a username, [getLoggedInUser] sends one request,
    whatever comes of it. *)
Lemma getLoggedInUser_one_request w token username :
  Js.truthy token = true → Js.truthy username = true →
  sent (after (getLoggedInUser server token username) w)
    = sent w ++ [request_user token username].
Proof.
  intros Htoken Husername.
  change (wp (getLoggedInUser server token username) w
            (λ _ w', sent w' = sent w ++ [request_user token username])).
  unfold getLoggedInUser, Js.not. rewrite Htoken, Husername. simpl.
  apply wp_bind, wp_axios_any; [intros data Hdata|done].
  apply wp_bind, wp_prop_any; [intros userObj Huser|done].
  apply wp_bind, wp_new_User. intros fav0 own0 this Hfav0 Hown0 Hne Hthis.
  apply wp_bind. eapply wp_set_loginToken; [solve_lookup|].
  apply wp_bind, wp_of_records. intros fav Hfav.
  apply wp_bind. eapply wp_set_favorites; [solve_lookup|].
  apply wp_bind, wp_of_records. intros own Hown.
  apply wp_bind. eapply wp_set_ownStories; [solve_lookup|].
  by apply wp_ret.
Qed.

(** Without a token or without a username, [getLoggedInUser] resolves with
    [null] and the world is as it was: nothing was sent. *)
Lemma getLoggedInUser_null w token username :
  Js.truthy token = false ∨ Js.truthy username = false →
  getLoggedInUser server token username w = (Resolved None, w).
Proof.
  unfold getLoggedInUser, Js.not. intros [-> | ->]; simpl; [done|].
  by rewrite orb_true_r.
Qed.

End Accounts.

Lemma absent_not_truthy v : Js.absent v → Js.truthy v = false.
Proof. by intros [-> | ->]. Qed.

Lemma lookup_new_stories (objs : list StoryObj.t) i s :
  map Story.new objs !! i = Some s →
  ∃ obj, objs !! i = Some obj ∧ s = Story.new obj ∧
         Story.storyId s = StoryObj.storyId obj.
Proof.
  intros H. apply list_lookup_fmap_Some in H as (obj & Hs & Hobj).
  exists obj. by subst s.
Qed.

Section AccountClaims.

Variable server : list Request → Request → Reply.

(** C7.  When the login request succeeds, the User that [login] returns
    has as many favorites and own stories as the user record of the
    response has favorite records and story records; each entry is a Story
    made from the record at the same place, with the storyId of that
    record; and loginToken is the token of the response. *)
Theorem login_builds_user w username password data userObj :
  server (sent w) (request_login username password) = Response data →
  data_user data = Some userObj →
  let m := login server username password in
  ∃ this u favs owns,
    outcome m w = Resolved this ∧
    users (after m w) !! this = Some u ∧
    favorites_of (after m w) this = Some favs ∧
    ownStories_of (after m w) this = Some owns ∧
    length favs = length (UserObj.favorites userObj) ∧
    length owns = length (UserObj.stories userObj) ∧
    (∀ i s, favs !! i = Some s →
       ∃ obj, UserObj.favorites userObj !! i = Some obj ∧
              s = Story.new obj ∧
              Story.storyId s = StoryObj.storyId obj) ∧
    (∀ i s, owns !! i = Some s →
       ∃ obj, UserObj.stories userObj !! i = Some obj ∧
              s = Story.new obj ∧
              Story.storyId s = StoryObj.storyId obj) ∧
    User.loginToken u = data_token data.
Proof.
  intros Hsrv Huser m.
  destruct (login_wp server w username password data userObj Hsrv Huser)
    as (this & u & Ho & _ & Hu & _ & _ & Htoken & Hfav & Hown).
  exists this, u. eexists _, _.
  split; [done|]. split; [done|]. split; [done|]. split; [done|].
  rewrite !length_map. split; [done|]. split; [done|].
  split; [apply lookup_new_stories|]. split; [apply lookup_new_stories|].
  done.
Qed.

(** C8, as the code has it.  When the signup request succeeds, the User
    that [create] returns has the username and the name of the user record
    in the response and, as loginToken, the token of the response: they
    are the username and name that were submitted when the service echoes
    them, and the token is not empty when the service issues one. *)
Theorem create_builds_user w username password name data userObj :
  server (sent w) (request_signup username password name) = Response data →
  data_user data = Some userObj →
  let m := create server username password name in
  ∃ this u,
    outcome m w = Resolved this ∧
    users (after m w) !! this = Some u ∧
    User.username u = UserObj.username userObj ∧
    User.name u = UserObj.name userObj ∧
    User.loginToken u = data_token data ∧
    (UserObj.username userObj = username →
     UserObj.name userObj = name →
     Js.truthy (data_token data) = true →
     User.username u = username ∧ User.name u = name ∧
     User.loginToken u ≠ Js.str "" ∧ User.loginToken u ≠ Js.undefined).
Proof.
  intros Hsrv Huser m.
  destruct (create_wp server w username password name data userObj Hsrv
              Huser)
    as (this & u & Ho & _ & Hu & Hname & Hfull & _ & _ & Htoken & _).
  exists this, u. repeat (split; [done|]).
  intros <- <- Htruthy. rewrite Htoken.
  repeat split; try done; by intros Heq; rewrite Heq in Htruthy.
Qed.

(** C5, as the code has it.  When the token or the username is falsy
    (absent, or the empty string) [getLoggedInUser] resolves with [null]
    and sends nothing.  Otherwise it sends exactly one request, and when
    that resolves with a user record the User returned has the given token
    and the favorites and own stories made from the records of the
    response. *)
Theorem getLoggedInUser_guard w token username :
  (Js.absent token ∨ Js.absent username →
   getLoggedInUser server token username w = (Resolved None, w)) ∧
  (Js.truthy token = false ∨ Js.truthy username = false →
   getLoggedInUser server token username w = (Resolved None, w)) ∧
  (Js.truthy token = true → Js.truthy username = true →
   let m := getLoggedInUser server token username in
   sent (after m w) = sent w ++ [request_user token username] ∧
   ∀ data userObj,
     server (sent w) (request_user token username) = Response data →
     data_user data = Some userObj →
     ∃ this u,
       outcome m w = Resolved (Some this) ∧
       users (after m w) !! this = Some u ∧
       User.loginToken u = token ∧
       favorites_of (after m w) this
         = Some (map Story.new (UserObj.favorites userObj)) ∧
       ownStories_of (after m w) this
         = Some (map Story.new (UserObj.stories userObj))).
Proof.
  split; [|split].
  - intros H. apply getLoggedInUser_null.
    destruct H as [H|H]; [left|right]; by apply absent_not_truthy.
  - apply getLoggedInUser_null.
  - intros Htoken Husername m. split.
    + by apply getLoggedInUser_one_request.
    + intros data userObj Hsrv Huser.
      destruct (getLoggedInUser_wp server w token username data userObj)
        as (this & u & Ho & _ & Hu & _ & _ & Htok & Hfav & Hown); try done.
      by exists this, u.
Qed.

(** C9.  [getLoggedInUser] takes the empty string for a missing value:
    with [""] as token, or with [""] as username, it resolves with [null]
    and the world is as it was, so nothing was sent. *)
Theorem getLoggedInUser_empty_string w token username :
  getLoggedInUser server (Js.str "") username w = (Resolved None, w) ∧
  getLoggedInUser server token (Js.str "") w = (Resolved None, w) ∧
  sent (after (getLoggedInUser server (Js.str "") username) w) = sent w ∧
  sent (after (getLoggedInUser server token (Js.str "")) w) = sent w.
Proof.
  assert (H1 : getLoggedInUser server (Js.str "") username w
               = (Resolved None, w)).
  { apply getLoggedInUser_null. by left. }
  assert (H2 : getLoggedInUser server token (Js.str "") w
               = (Resolved None, w)).
  { apply getLoggedInUser_null. by right. }
  unfold after. by rewrite H1, H2.
Qed.

End AccountClaims.

(** The theorems at the sample world. *)
Lemma login_builds_user_witness :
  let m := login Sample.server_ok "bob" "secret" in
  ∃ this u,
    outcome m Sample.w0 = Resolved this ∧
    users (after m Sample.w0) !! this = Some u ∧
    favorites_of (after m Sample.w0) this
      = Some [Story.new (StoryObj.mk "Ada" "Notes" "http://a.example" "bob"
                           "sid1" "2020" "2020")] ∧
    ownStories_of (after m Sample.w0) this
      = Some [Story.new Sample.storyObj3] ∧
    User.loginToken u = Js.str "tok".
Proof.
  destruct (login_builds_user Sample.server_ok Sample.w0 "bob" "secret"
              (mkData (Some [Sample.storyObj3]) (Some Sample.storyObj3)
                 (Some Sample.bobObj) (Js.str "tok")) Sample.bobObj
              eq_refl eq_refl)
    as (this & u & favs & owns & Ho & Hu & Hfav & Hown & _ & _ & _ & _ & Htok).
  exists this, u. split; [done|]. split; [done|].
  split; [|split; [|done]].
  - rewrite Hfav. vm_compute in Ho. injection Ho as <-.
    vm_compute in Hfav. by injection Hfav as <-.
  - rewrite Hown. vm_compute in Ho. injection Ho as <-.
    vm_compute in Hown. by injection Hown as <-.
Defined.

Lemma create_builds_user_witness :
  let m := create Sample.server_ok "bob" "secret" "Bob B" in
  ∃ this u,
    outcome m Sample.w0 = Resolved this ∧
    users (after m Sample.w0) !! this = Some u ∧
    User.username u = "bob" ∧ User.name u = "Bob B" ∧
    User.loginToken u ≠ Js.str "".
Proof.
  destruct (create_builds_user Sample.server_ok Sample.w0 "bob" "secret"
              "Bob B"
              (mkData (Some [Sample.storyObj3]) (Some Sample.storyObj3)
                 (Some Sample.bobObj) (Js.str "tok")) Sample.bobObj
              eq_refl eq_refl)
    as (this & u & Ho & Hu & _ & _ & _ & Hecho).
  destruct (Hecho eq_refl eq_refl eq_refl) as (Hname & Hfull & Htoken & _).
  by exists this, u.
Defined.

Lemma getLoggedInUser_guard_witness :
  getLoggedInUser Sample.server_ok Js.undefined (Js.str "bob") Sample.w0
    = (Resolved None, Sample.w0) ∧
  let m := getLoggedInUser Sample.server_ok (Js.str "tok") (Js.str "bob") in
  sent (after m Sample.w0)
    = [request_user (Js.str "tok") (Js.str "bob")] ∧
  ∃ this u,
    outcome m Sample.w0 = Resolved (Some this) ∧
    users (after m Sample.w0) !! this = Some u ∧
    User.loginToken u = Js.str "tok".
Proof.
  split.
  - destruct (getLoggedInUser_guard Sample.server_ok Sample.w0 Js.undefined
                (Js.str "bob")) as (Habsent & _ & _).
    apply Habsent. left. by left.
  - destruct (getLoggedInUser_guard Sample.server_ok Sample.w0
                (Js.str "tok") (Js.str "bob")) as (_ & _ & H).
    destruct (H eq_refl eq_refl) as (Hsent & Huser).
    split; [exact Hsent|].
    destruct (Huser (mkData (Some [Sample.storyObj3])
                       (Some Sample.storyObj3) (Some Sample.bobObj)
                       (Js.str "tok")) Sample.bobObj eq_refl eq_refl)
      as (this & u & Ho & Hu & Htok & _).
    by exists this, u.
Defined.

(** C5 as the specification has it fails for a token that is there and
    empty: neither argument is absent, and [getLoggedInUser] resolves with
    [null] without a request. *)
Lemma getLoggedInUser_empty_token_sends_nothing :
  let m := getLoggedInUser Sample.server_ok (Js.str "") (Js.str "bob") in
  ¬ Js.absent (Js.str "") ∧ ¬ Js.absent (Js.str "bob") ∧
  outcome m Sample.w0 = Resolved None ∧
  sent (after m Sample.w0) = sent Sample.w0.
Proof.
  split; [by intros [?|?]|]. split; [by intros [?|?]|]. by split.
Qed.

(** C8 as the specification has it fails when the service does not echo
    the signup: "Bob" signs up, the service stores the username in lower
    case, and the User returned has the username of the response. *)
Lemma create_username_from_response :
  let m := create Sample.server_lowercase "Bob" "secret" "Bob B" in
  ∃ this u,
    outcome m Sample.w0 = Resolved this ∧
    users (after m Sample.w0) !! this = Some u ∧
    User.username u = "bob" ∧
    User.username u ≠ "Bob".
Proof.
  exists 2%positive. eexists. split; [reflexivity|]. split; [reflexivity|].
  by split.
Qed.

(** ** The worlds the classes build are well formed

    The theorems on [addStory] above ask that the arrays of the list and
    of the user be different arrays.  This is so in every world that the
    methods make from a well-formed one, the empty world to begin with. *)

Lemma wf_empty : wf empty_world.
Proof. repeat split; intros; by simplify_map_eq. Qed.

Lemma wf_separate w this user sl u :
  wf w → storyLists w !! this = Some sl → users w !! user = Some u →
  separate sl u ∧
  is_Some (arrays w !! StoryList.stories sl) ∧
  is_Some (arrays w !! User.favorites u) ∧
  is_Some (arrays w !! User.ownStories u).
Proof.
  intros (Husers & Hlists & Hsep) Hsl Hu.
  destruct (Husers user u Hu) as (? & ? & ?).
  destruct (Hsep this sl user u Hsl Hu) as (? & ?).
  repeat split; eauto.
Qed.

Lemma wf_upd_sent request w : wf w → wf (upd_sent request w).
Proof. done. Qed.

Lemma wf_upd_array r l w : wf w → wf (upd_array r l w).
Proof.
  intros (Husers & Hlists & Hsep). split; [|split]; simpl.
  - intros user u Hu. destruct (Husers user u Hu) as (? & ? & ?).
    rewrite !lookup_insert_is_Some'. auto.
  - intros this sl Hsl. specialize (Hlists this sl Hsl).
    rewrite lookup_insert_is_Some'. auto.
  - done.
Qed.

Lemma unowned_alloc r l w :
  wf w → arrays w !! r = None → unowned (upd_array r l w) r.
Proof.
  intros (Husers & Hlists & Hsep) Hr. split; [|split]; simpl.
  - rewrite lookup_insert_eq. by eexists.
  - intros user u Hu. destruct (Husers user u Hu) as ([? ?] & [? ?] & ?).
    split; congruence.
  - intros this sl Hsl. destruct (Hlists this sl Hsl) as [? ?]. congruence.
Qed.

Lemma wf_set_stories this r w :
  wf w → unowned w r → wf (upd_storyList this (StoryList.mk r) w).
Proof.
  intros (Husers & Hlists & Hsep) (Hr & Hru & Hrl).
  split; [|split]; simpl.
  - done.
  - intros this' sl. rewrite lookup_insert_Some.
    intros [[_ <-]|[_ Hsl]]; [done | by eapply Hlists].
  - intros this' sl user u. rewrite lookup_insert_Some.
    intros [[_ <-]|[_ Hsl]] Hu; [by apply (Hru user) | by eapply Hsep].
Qed.

Lemma wf_upd_user this u' w :
  wf w →
  is_Some (arrays w !! User.favorites u') →
  is_Some (arrays w !! User.ownStories u') →
  User.favorites u' ≠ User.ownStories u' →
  (∀ that sl, storyLists w !! that = Some sl →
     StoryList.stories sl ≠ User.favorites u' ∧
     StoryList.stories sl ≠ User.ownStories u') →
  wf (upd_user this u' w).
Proof.
  intros (Husers & Hlists & Hsep) Hfav Hown Hne Hsl.
  split; [|split]; simpl.
  - intros user u. rewrite lookup_insert_Some.
    intros [[_ <-]|[_ Hu]]; [done | by eapply Husers].
  - done.
  - intros that sl user u Hthat. rewrite lookup_insert_Some.
    intros [[_ <-]|[_ Hu]]; [by eapply Hsl | by eapply Hsep].
Qed.

Lemma wf_set_favorites this r u w :
  wf w → unowned w r → users w !! this = Some u →
  wf (upd_user this
        (User.mk (User.username u) (User.name u) (User.createdAt u)
           (User.updatedAt u) (User.loginToken u) r (User.ownStories u)) w).
Proof.
  intros Hwf (Hr & Hru & Hrl) Hu. pose proof Hwf as (Husers & Hlists & Hsep).
  destruct (Husers this u Hu) as (? & ? & ?).
  destruct (Hru this u Hu) as (? & ?).
  apply wf_upd_user; simpl; try done.
  intros that sl Hsl. split; [by apply not_eq_sym, (Hrl that)|].
  by apply (Hsep that sl this u).
Qed.

Lemma wf_set_ownStories this r u w :
  wf w → unowned w r → users w !! this = Some u →
  wf (upd_user this
        (User.mk (User.username u) (User.name u) (User.createdAt u)
           (User.updatedAt u) (User.loginToken u) (User.favorites u) r) w).
Proof.
  intros Hwf (Hr & Hru & Hrl) Hu. pose proof Hwf as (Husers & Hlists & Hsep).
  destruct (Husers this u Hu) as (? & ? & ?).
  destruct (Hru this u Hu) as (? & ?).
  apply wf_upd_user; simpl; try done.
  intros that sl Hsl. split; [|by apply not_eq_sym, (Hrl that)].
  by apply (Hsep that sl this u).
Qed.

Lemma wf_set_loginToken this token u w :
  wf w → users w !! this = Some u →
  wf (upd_user this
        (User.mk (User.username u) (User.name u) (User.createdAt u)
           (User.updatedAt u) token (User.favorites u) (User.ownStories u))
        w).
Proof.
  intros Hwf Hu. pose proof Hwf as (Husers & Hlists & Hsep).
  destruct (Husers this u Hu) as (? & ? & ?).
  apply wf_upd_user; simpl; try done.
  intros that sl Hsl. by apply (Hsep that sl this u).
Qed.

Lemma wf_new_User this profile fav own w :
  wf w → arrays w !! fav = None → arrays w !! own = None → fav ≠ own →
  wf (upd_user this
        (User.mk (UserObj.username profile) (UserObj.name profile)
           (UserObj.createdAt profile) (UserObj.updatedAt profile)
           (Js.str "") fav own)
        (upd_array own [] (upd_array fav [] w))).
Proof.
  intros Hwf Hfav Hown Hne. pose proof Hwf as (Husers & Hlists & Hsep).
  apply wf_upd_user; simpl.
  - by do 2 apply wf_upd_array.
  - rewrite lookup_insert_ne, lookup_insert_eq by done. by eexists.
  - rewrite lookup_insert_eq. by eexists.
  - done.
  - intros that sl Hsl. destruct (Hlists that sl Hsl) as [? ?].
    split; congruence.
Qed.

Section WellFormed.

Variable server : list Request → Request → Reply.

Lemma getStories_wf w : wf w → wf (after (getStories server) w).
Proof.
  intros Hwf. change (wp (getStories server) w (λ _ w', wf w')).
  unfold getStories.
  apply wp_bind, wp_axios_any; [intros data Hdata|done].
  apply wp_bind, wp_prop_any; [intros objs Hobjs|done].
  apply wp_bind, wp_of_records. intros r Hr.
  apply wp_bind, wp_new_StoryList. intros this Hthis. apply wp_ret.
  apply wf_set_stories; [by apply wf_upd_array, wf_upd_sent|].
  by apply unowned_alloc.
Qed.

Lemma addStory_wf w this user title author url :
  wf w → wf (after (addStory server this user title author url) w).
Proof.
  intros Hwf.
  change (wp (addStory server this user title author url) w
            (λ _ w', wf w')).
  unfold addStory.
  apply wp_bind, wp_get_user_any; [intros u Hu|done].
  apply wp_bind, wp_axios_any; [intros data Hdata|done].
  apply wp_bind, wp_prop_any; [intros storyObj Hstory|done].
  apply wp_bind, wp_get_storyList_any; [intros sl Hsl|done].
  apply wp_bind, wp_unshift_any; [intros l_st Hst|done].
  apply wp_bind, wp_get_user_any;
    [intros u' Hu'|intros; by apply wf_upd_array].
  apply wp_bind, wp_unshift_any;
    [intros l_own Hown|intros; by apply wf_upd_array].
  apply wp_ret. by do 2 apply wf_upd_array.
Qed.

Lemma removeStory_wf w this user storyId :
  wf w → wf (after (removeStory server this user storyId) w).
Proof.
  intros Hwf.
  change (wp (removeStory server this user storyId) w (λ _ w', wf w')).
  unfold removeStory.
  apply wp_bind, wp_get_user_any; [intros u Hu|done].
  apply wp_bind, wp_axios_any; [intros data Hdata|done].
  apply wp_bind, wp_get_storyList_any; [intros sl Hsl|done].
  apply wp_bind, wp_filter_any; [intros l_st r1 Hst Hr1|done].
  assert (Hwf1 : wf (upd_storyList this (StoryList.mk r1)
                       (upd_array r1 (List.filter (storyId_differs storyId)
                                        l_st)
                          (upd_sent (request_removeStory u storyId) w)))).
  { apply wf_set_stories; [by apply wf_upd_array|by apply unowned_alloc]. }
  apply wp_bind, wp_set_stories_any;
    [intros _ _|intros; by apply wf_upd_array].
  apply wp_bind, wp_get_user_any; [intros u1 Hu1|done].
  apply wp_bind, wp_filter_any; [intros l_own r2 Hown Hr2|done].
  apply wp_bind. eapply wp_set_ownStories; [done|].
  match goal with |- wp_next _ _ _ ?w2 => assert (Hwf2 : wf w2) end.
  { apply wf_set_ownStories; [by apply wf_upd_array| |done].
    by apply unowned_alloc. }
  apply wp_bind, wp_get_user_any; [intros u2 Hu2|done].
  apply wp_bind, wp_filter_any; [intros l_fav r3 Hfav Hr3|done].
  eapply wp_set_favorites; [done|].
  apply wf_set_favorites; [by apply wf_upd_array| |done].
  by apply unowned_alloc.
Qed.

Lemma addFavorite_wf w this story :
  wf w → wf (after (addFavorite server this story) w).
Proof.
  intros Hwf. change (wp (addFavorite server this story) w (λ _ w', wf w')).
  unfold addFavorite, _addOrRemoveFavorite.
  apply wp_bind, wp_get_user_any; [intros u Hu|done].
  apply wp_bind, wp_push_any; [intros fav Hfav|done].
  apply wp_bind, wp_get_user_any;
    [intros u' Hu'|intros; by apply wf_upd_array].
  apply wp_bind, wp_axios_any; intros; by apply wf_upd_array.
Qed.

Lemma removeFavorite_wf w this story :
  wf w → wf (after (removeFavorite server this story) w).
Proof.
  intros Hwf.
  change (wp (removeFavorite server this story) w (λ _ w', wf w')).
  unfold removeFavorite, _addOrRemoveFavorite.
  apply wp_bind, wp_get_user_any; [intros u Hu|done].
  apply wp_bind, wp_filter_any; [intros fav r Hfav Hr|done].
  apply wp_bind. eapply wp_set_favorites; [done|].
  match goal with |- wp_next _ _ _ ?w1 => assert (Hwf1 : wf w1) end.
  { apply wf_set_favorites; [by apply wf_upd_array| |done].
    by apply unowned_alloc. }
  apply wp_bind, wp_get_user_any; [intros u' Hu'|done].
  apply wp_bind, wp_axios_any; intros; by apply wf_upd_sent.
Qed.

Lemma isFavorite_wf w this story :
  wf w → wf (after (isFavorite this story) w).
Proof. by rewrite isFavorite_pure. Qed.

Lemma create_wf w username password name :
  wf w → wf (after (create server username password name) w).
Proof.
  intros Hwf.
  change (wp (create server username password name) w (λ _ w', wf w')).
  unfold create.
  apply wp_bind, wp_axios_any; [intros data Hdata|done].
  apply wp_bind, wp_prop_any; [intros userObj Huser|done].
  apply wp_bind, wp_new_User. intros fav own this Hfav Hown Hne Hthis.
  match goal with |- wp_next _ _ _ ?w1 => assert (Hwf1 : wf w1) end.
  { by apply wf_new_User. }
  apply wp_bind. eapply wp_set_loginToken; [solve_lookup|].
  apply wp_ret. apply wf_set_loginToken; [done|solve_lookup].
Qed.

Lemma login_wf w username password :
  wf w → wf (after (login server username password) w).
Proof.
  intros Hwf.
  change (wp (login server username password) w (λ _ w', wf w')).
  unfold login.
  apply wp_bind, wp_axios_any; [intros data Hdata|done].
  apply wp_bind, wp_prop_any; [intros userObj Huser|done].
  apply wp_bind, wp_new_User. intros fav0 own0 this Hfav0 Hown0 Hne Hthis.
  match goal with |- wp_next _ _ _ ?w1 => assert (Hwf1 : wf w1) end.
  { by apply wf_new_User. }
  apply wp_bind, wp_of_records. intros fav Hfav.
  apply wp_bind. eapply wp_set_favorites; [solve_lookup|].
  match goal with |- wp_next _ _ _ ?w2 => assert (Hwf2 : wf w2) end.
  { apply wf_set_favorites; [by apply wf_upd_array| |solve_lookup].
    by apply unowned_alloc. }
  apply wp_bind, wp_of_records. intros own Hown.
  apply wp_bind. eapply wp_set_ownStories; [solve_lookup|].
  match goal with |- wp_next _ _ _ ?w3 => assert (Hwf3 : wf w3) end.
  { apply wf_set_ownStories; [by apply wf_upd_array| |solve_lookup].
    by apply unowned_alloc. }
  apply wp_bind. eapply wp_set_loginToken; [solve_lookup|].
  apply wp_ret. apply wf_set_loginToken; [done|solve_lookup].
Qed.

Lemma getLoggedInUser_wf w token username :
  wf w → wf (after (getLoggedInUser server token username) w).
Proof.
  intros Hwf.
  change (wp (getLoggedInUser server token username) w (λ _ w', wf w')).
  unfold getLoggedInUser. destruct (Js.not token || Js.not username); [done|].
  apply wp_bind, wp_axios_any; [intros data Hdata|done].
  apply wp_bind, wp_prop_any; [intros userObj Huser|done].
  apply wp_bind, wp_new_User. intros fav0 own0 this Hfav0 Hown0 Hne Hthis.
  match goal with |- wp_next _ _ _ ?w1 => assert (Hwf1 : wf w1) end.
  { by apply wf_new_User. }
  apply wp_bind. eapply wp_set_loginToken; [solve_lookup|].
  match goal with |- wp_next _ _ _ ?w2 => assert (Hwf2 : wf w2) end.
  { apply wf_set_loginToken; [done|solve_lookup]. }
  apply wp_bind, wp_of_records. intros fav Hfav.
  apply wp_bind. eapply wp_set_favorites; [solve_lookup|].
  match goal with |- wp_next _ _ _ ?w3 => assert (Hwf3 : wf w3) end.
  { apply wf_set_favorites; [by apply wf_upd_array| |solve_lookup].
    by apply unowned_alloc. }
  apply wp_bind, wp_of_records. intros own Hown.
  apply wp_bind. eapply wp_set_ownStories; [solve_lookup|].
  apply wp_ret.
  apply wf_set_ownStories; [by apply wf_upd_array| |solve_lookup].
  by apply unowned_alloc.
Qed.

(** Every method takes a well-formed world to a well-formed world,
    whatever its outcome. *)
Theorem wf_preserved w :
  wf w →
  wf (after (getStories server) w) ∧
  (∀ this user title author url,
     wf (after (addStory server this user title author url) w)) ∧
  (∀ this user storyId, wf (after (removeStory server this user storyId) w)) ∧
  (∀ username password name,
     wf (after (create server username password name) w)) ∧
  (∀ username password, wf (after (login server username password) w)) ∧
  (∀ token username,
     wf (after (getLoggedInUser server token username) w)) ∧
  (∀ this story, wf (after (addFavorite server this story) w)) ∧
  (∀ this story, wf (after (removeFavorite server this story) w)) ∧
  (∀ this story, wf (after (isFavorite this story) w)).
Proof.
  intros Hwf. repeat match goal with |- _ ∧ _ => split end; intros;
    auto using getStories_wf, addStory_wf, removeStory_wf, create_wf,
      login_wf, getLoggedInUser_wf, addFavorite_wf, removeFavorite_wf,
      isFavorite_wf.
Qed.

(** Hence every world built by calls of the methods is well formed. *)
Theorem built_wf w : built server w → wf w.
Proof.
  induction 1 as [|c w Hbuilt IH]; [apply wf_empty|].
  destruct (wf_preserved w IH)
    as (H1 & H2 & H3 & H4 & H5 & H6 & H7 & H8 & H9).
  destruct c; simpl; auto.
Qed.

End WellFormed.

(** In a well-formed world [addStory] needs no more than a list, a user and
    a reply with a story: the arrays are there and are different arrays. *)
Lemma addStory_prepends_wf (server : list Request → Request → Reply) w this
    user title author url sl u data storyObj :
  wf w →
  storyLists w !! this = Some sl →
  users w !! user = Some u →
  server (sent w) (request_addStory u title author url) = Response data →
  data_story data = Some storyObj →
  let m := addStory server this user title author url in
  ∃ l_st l_own,
    stories_of w this = Some l_st ∧
    ownStories_of w user = Some l_own ∧
    outcome m w = Resolved (Story.new storyObj) ∧
    stories_of (after m w) this = Some (Story.new storyObj :: l_st) ∧
    ownStories_of (after m w) user = Some (Story.new storyObj :: l_own).
Proof.
  intros Hwf Hsl Hu Hsrv Hstory m.
  destruct (wf_separate w this user sl u Hwf Hsl Hu)
    as ((_ & Hne & _) & [l_st Hst] & _ & [l_own Hown]).
  exists l_st, l_own.
  split; [apply stories_of_Some; eauto|].
  split; [apply ownStories_of_Some; eauto|].
  by apply (addStory_wp server w this user title author url sl u l_st l_own
              data storyObj).
Qed.

(** The sample world is well formed; the world with the shared array is
    not. *)
Example sample_world_wf : wf Sample.w0.
Proof.
  split; [|split]; simpl.
  - intros user u Hu. apply lookup_insert_Some in Hu as [[_ <-]|[_ Hu]];
      [|by rewrite lookup_empty in Hu].
    repeat split; [by eexists..|done].
  - intros this sl Hsl. apply lookup_insert_Some in Hsl as [[_ <-]|[_ Hsl]];
      [|by rewrite lookup_empty in Hsl].
    by eexists.
  - intros this sl user u Hsl Hu.
    apply lookup_insert_Some in Hsl as [[_ <-]|[_ Hsl]];
      [|by rewrite lookup_empty in Hsl].
    apply lookup_insert_Some in Hu as [[_ <-]|[_ Hu]];
      [|by rewrite lookup_empty in Hu].
    by split.
Qed.

Example shared_world_not_wf : ¬ wf Sample.w_shared.
Proof.
  intros (_ & _ & Hsep).
  destruct (Hsep 1%positive (StoryList.mk 2) 1%positive Sample.bob)
    as [_ Hne]; [reflexivity..|].
  by apply Hne.
Qed.

Lemma addStory_prepends_built (server : list Request → Request → Reply) w
    this user title author url sl u data storyObj :
  built server w →
  storyLists w !! this = Some sl →
  users w !! user = Some u →
  server (sent w) (request_addStory u title author url) = Response data →
  data_story data = Some storyObj →
  let m := addStory server this user title author url in
  ∃ l_st l_own,
    stories_of w this = Some l_st ∧
    ownStories_of w user = Some l_own ∧
    outcome m w = Resolved (Story.new storyObj) ∧
    stories_of (after m w) this = Some (Story.new storyObj :: l_st) ∧
    ownStories_of (after m w) user = Some (Story.new storyObj :: l_own).
Proof.
  intros Hbuilt. apply addStory_prepends_wf. by eapply built_wf.
Qed.

(** A session from the empty world: bob logs in, the feed is fetched, and
    bob removes the story "sid3" that the feed and his own stories hold. *)
Example session :
  let w1 := run Sample.server_ok (Call_login "bob" "secret") empty_world in
  let w2 := run Sample.server_ok Call_getStories w1 in
  let w3 := run Sample.server_ok (Call_removeStory 1 1 "sid3") w2 in
  stories_of w2 1 = Some [Story.new Sample.storyObj3] ∧
  ownStories_of w2 1 = Some [Story.new Sample.storyObj3] ∧
  length <$> favorites_of w2 1 = Some 1 ∧
  stories_of w3 1 = Some [] ∧
  ownStories_of w3 1 = Some [] ∧
  length <$> favorites_of w3 1 = Some 1 ∧
  length (sent w3) = 3.
Proof. repeat split. Qed.

(** * More of the classes

    What the methods do beyond the properties above: the feed, the
    rejections, how the methods compose, and what they leave alone. *)

Ltac extends_kept :=
  unfold extends; repeat match goal with |- _ ∧ _ => split end;
  intros; simpl in *; split_fresh; by simplify_map_eq.

Lemma extends_refl w : extends w w.
Proof. by repeat split. Qed.

Lemma filter_filter_same {A} (p : A → bool) l :
  List.filter p (List.filter p l) = List.filter p l.
Proof.
  induction l as [|x l IH]; simpl; [done|].
  destruct (p x) eqn:Hp; simpl; [|done]. by rewrite Hp, IH.
Qed.

Lemma filter_differs_all storyId l :
  (∀ s, s ∈ l → Story.storyId s ≠ storyId) →
  List.filter (storyId_differs storyId) l = l.
Proof.
  induction l as [|x l IH]; simpl; [done|]. intros H.
  unfold storyId_differs at 1. rewrite bool_decide_eq_true_2.
  - f_equal. apply IH. intros s Hs. apply H. by right.
  - apply H. by left.
Qed.

Lemma filter_differs_cons_same storyId story l :
  Story.storyId story = storyId →
  List.filter (storyId_differs storyId) (story :: l)
    = List.filter (storyId_differs storyId) l.
Proof.
  intros H. simpl. unfold storyId_differs at 1.
  by rewrite bool_decide_eq_false_2 by (intros Hne; by apply Hne).
Qed.

Lemma map_storyId_new objs :
  map Story.storyId (map Story.new objs) = map StoryObj.storyId objs.
Proof. rewrite map_map. by apply map_ext. Qed.

(** ** class StoryList: getStories *)

Section GetStories.

Variable server : list Request → Request → Reply.

Lemma getStories_wp w data objs :
  server (sent w) request_stories = Response data →
  data_stories data = Some objs →
  wp (getStories server) w (λ o w',
    ∃ this,
      o = Resolved this ∧
      storyLists w !! this = None ∧
      stories_of w' this = Some (map Story.new objs) ∧
      sent w' = sent w ++ [request_stories] ∧
      extends w w').
Proof.
  intros Hsrv Hobjs. unfold getStories.
  apply wp_bind. eapply wp_axios_Response; [done|].
  apply wp_bind. eapply wp_prop_Some; [done|].
  apply wp_bind, wp_of_records. intros r Hr.
  apply wp_bind, wp_new_StoryList. intros this Hthis. apply wp_ret.
  exists this. split; [done|]. split; [done|].
  split; [unfold stories_of; simpl; by simplify_map_eq|].
  split; [done|]. extends_kept.
Qed.

(** When the request for the feed succeeds, [getStories] returns a new
    StoryList whose stories are the Stories made from the records of the
    response, in their order (none for an empty feed); it has sent the one
    GET request, without a token; and every list, user and array that was
    there is as it was. *)
Theorem getStories_builds_list w data objs :
  server (sent w) request_stories = Response data →
  data_stories data = Some objs →
  let m := getStories server in
  ∃ this,
    outcome m w = Resolved this ∧
    storyLists w !! this = None ∧
    stories_of (after m w) this = Some (map Story.new objs) ∧
    sent (after m w)
      = sent w ++ [mkRequest GET (BASE_URL +:+ "/stories") NoPayload] ∧
    (∀ that l, stories_of w that = Some l →
               stories_of (after m w) that = Some l) ∧
    (∀ user l, favorites_of w user = Some l →
               favorites_of (after m w) user = Some l) ∧
    (∀ user l, ownStories_of w user = Some l →
               ownStories_of (after m w) user = Some l).
Proof.
  intros Hsrv Hobjs m.
  destruct (getStories_wp w data objs Hsrv Hobjs)
    as (this & Ho & Hnew & Hst & Hsent & Harr & Husers & Hlists).
  exists this. repeat (split; [done|]).
  split; [|split].
  - intros that l. rewrite !stories_of_Some. intros (sl & ? & ?).
    exists sl. eauto.
  - intros user l. rewrite !favorites_of_Some. intros (u & ? & ?).
    exists u. eauto.
  - intros user l. rewrite !ownStories_of_Some. intros (u & ? & ?).
    exists u. eauto.
Qed.

End GetStories.

Lemma getStories_builds_list_witness :
  let m := getStories Sample.server_ok in
  ∃ this,
    outcome m Sample.w0 = Resolved this ∧
    stories_of (after m Sample.w0) this
      = Some [Story.new Sample.storyObj3] ∧
    stories_of (after m Sample.w0) 1 = Some [Sample.s1; Sample.s2].
Proof.
  destruct (getStories_builds_list Sample.server_ok Sample.w0
              (mkData (Some [Sample.storyObj3]) (Some Sample.storyObj3)
                 (Some Sample.bobObj) (Js.str "tok")) [Sample.storyObj3]
              eq_refl eq_refl)
    as (this & Ho & _ & Hst & _ & Hkept & _).
  exists this. split; [done|]. split; [done|].
  by apply Hkept.
Defined.

(** ** class StoryList: the rejections *)

Section StoryListRejections.

Variable server : list Request → Request → Reply.

Lemma getStories_failure w message :
  server (sent w) request_stories = Failure message →
  getStories server w
    = (Rejected (AxiosError message), upd_sent request_stories w).
Proof.
  intros Hsrv. unfold getStories, mbind, Eff_bind, axios.
  unfold request_stories in Hsrv. by rewrite Hsrv.
Qed.

Lemma getStories_no_stories w data :
  server (sent w) request_stories = Response data →
  data_stories data = None →
  getStories server w = (Rejected TypeError, upd_sent request_stories w).
Proof.
  intros Hsrv Hnone. unfold getStories, mbind, Eff_bind, axios.
  unfold request_stories in Hsrv. rewrite Hsrv. by rewrite Hnone.
Qed.

(** The three methods of StoryList send their request before they touch
    anything.  When the request fails they reject with its error, and
    when the response of [getStories] has no [stories], or that of
    [addStory] no [story], they reject with a TypeError; in each case the
    request has been sent and no array, list or user has changed or been
    made. *)
Theorem storyList_rejections w :
  (∀ message,
     server (sent w) request_stories = Failure message →
     getStories server w
       = (Rejected (AxiosError message), upd_sent request_stories w)) ∧
  (∀ data,
     server (sent w) request_stories = Response data →
     data_stories data = None →
     getStories server w
       = (Rejected TypeError, upd_sent request_stories w)) ∧
  (∀ this user title author url u data,
     users w !! user = Some u →
     server (sent w) (request_addStory u title author url)
       = Response data →
     data_story data = None →
     addStory server this user title author url w
       = (Rejected TypeError,
          upd_sent (request_addStory u title author url) w)) ∧
  (∀ this user storyId u message,
     users w !! user = Some u →
     server (sent w) (request_removeStory u storyId) = Failure message →
     removeStory server this user storyId w
       = (Rejected (AxiosError message),
          upd_sent (request_removeStory u storyId) w)).
Proof.
  repeat match goal with |- _ ∧ _ => split end; intros.
  - by apply getStories_failure.
  - by eapply getStories_no_stories.
  - by eapply addStory_no_story.
  - by apply removeStory_failure.
Qed.

End StoryListRejections.

Lemma storyList_rejections_witness :
  outcome (getStories Sample.server_down) Sample.w0
    = Rejected (AxiosError "Network Error") ∧
  outcome (getStories Sample.server_bare) Sample.w0 = Rejected TypeError ∧
  after (addStory Sample.server_bare 1 1 "T" "A" "U") Sample.w0
    = upd_sent (request_addStory Sample.bob "T" "A" "U") Sample.w0 ∧
  stories_of (after (removeStory Sample.server_down 1 1 "sid1") Sample.w0) 1
    = Some [Sample.s1; Sample.s2].
Proof.
  destruct (storyList_rejections Sample.server_down Sample.w0)
    as (H1 & _ & _ & H4).
  destruct (storyList_rejections Sample.server_bare Sample.w0)
    as (_ & H2 & H3 & _).
  unfold outcome, after.
  rewrite (H1 "Network Error" eq_refl).
  rewrite (H2 (mkData None None None Js.undefined) eq_refl eq_refl).
  rewrite (H3 1%positive 1%positive "T" "A" "U" Sample.bob
             (mkData None None None Js.undefined) eq_refl eq_refl eq_refl).
  rewrite (H4 1%positive 1%positive "sid1" Sample.bob "Network Error"
             eq_refl eq_refl).
  repeat split.
Defined.

(** ** class StoryList: removeStory again, and after addStory *)

Section RemoveStoryComposed.

Variable server : list Request → Request → Reply.

(** [removeStory] sends one request, that of the user as the call finds
    it, whatever becomes of the call. *)
Lemma removeStory_sent w this user storyId u :
  users w !! user = Some u →
  sent (after (removeStory server this user storyId) w)
    = sent w ++ [request_removeStory u storyId].
Proof.
  intros Hu.
  change (wp (removeStory server this user storyId) w
            (λ _ w', sent w' = sent w ++ [request_removeStory u storyId])).
  unfold removeStory.
  apply wp_bind. eapply wp_get_user; [done|].
  apply wp_bind, wp_axios_any; [intros data Hdata|done].
  apply wp_bind, wp_get_storyList_any; [intros sl Hsl|done].
  apply wp_bind, wp_filter_any; [intros l_st r1 Hst Hr1|done].
  apply wp_bind, wp_set_stories_any; [intros _ _|done].
  apply wp_bind. eapply wp_get_user; [done|].
  apply wp_bind, wp_filter_any; [intros l_own r2 Hown Hr2|done].
  apply wp_bind. eapply wp_set_ownStories; [done|].
  apply wp_bind. eapply wp_get_user; [solve_lookup|].
  apply wp_bind, wp_filter_any; [intros l_fav r3 Hfav Hr3|done].
  by eapply wp_set_favorites; [solve_lookup|].
Qed.

(** Removing a storyId a second time changes no list: when both requests
    succeed, the second [removeStory] resolves and the three lists hold
    what they held after the first. *)
Theorem removeStory_twice w this user storyId u l_st l_own l_fav data data' :
  stories_of w this = Some l_st →
  users w !! user = Some u →
  ownStories_of w user = Some l_own →
  favorites_of w user = Some l_fav →
  server (sent w) (request_removeStory u storyId) = Response data →
  let m := removeStory server this user storyId in
  server (sent (after m w)) (request_removeStory u storyId)
    = Response data' →
  outcome m (after m w) = Resolved () ∧
  stories_of (after m (after m w)) this = stories_of (after m w) this ∧
  ownStories_of (after m (after m w)) user
    = ownStories_of (after m w) user ∧
  favorites_of (after m (after m w)) user = favorites_of (after m w) user.
Proof.
  intros Hst Hu Hown Hfav Hsrv m Hsrv'.
  apply stories_of_Some in Hst as (sl & Hsl & Hst).
  apply ownStories_of_Some in Hown as (u1 & Hu1 & Hown).
  apply favorites_of_Some in Hfav as (u2 & Hu2 & Hfav).
  assert (u1 = u) by congruence; subst u1.
  assert (u2 = u) by congruence; subst u2.
  destruct (removeStory_wp server w this user storyId sl u l_st l_own l_fav
              data) as (_ & Hst1 & Hown1 & Hfav1); try done.
  fold m in Hst1, Hown1, Hfav1. rewrite Hst1, Hown1, Hfav1.
  apply stories_of_Some in Hst1 as (sl' & Hsl' & Hst1).
  apply ownStories_of_Some in Hown1 as (u' & Hu' & Hown1).
  apply favorites_of_Some in Hfav1 as (u'' & Hu'' & Hfav1).
  assert (u'' = u') by congruence; subst u''.
  destruct (removeStory_profile server w this user storyId u Hu)
    as (u3 & Hu3 & _ & _ & Htoken & _).
  fold m in Hu3. assert (u3 = u') by congruence; subst u3.
  destruct (removeStory_wp server (after m w) this user storyId sl' u'
              _ _ _ data' Hsl' Hu' Hst1 Hown1 Hfav1)
    as (Ho & Hst2 & Hown2 & Hfav2).
  { unfold request_removeStory in *. by rewrite Htoken. }
  fold m in Ho, Hst2, Hown2, Hfav2.
  rewrite Hst2, Hown2, Hfav2, !filter_filter_same. done.
Qed.

(** When no entry of the three lists has the storyId, a successful
    [removeStory] leaves the three lists holding what they held; the
    DELETE request is sent all the same. *)
Theorem removeStory_absent_storyId w this user storyId u l_st l_own l_fav
    data :
  stories_of w this = Some l_st →
  users w !! user = Some u →
  ownStories_of w user = Some l_own →
  favorites_of w user = Some l_fav →
  server (sent w) (request_removeStory u storyId) = Response data →
  (∀ s, s ∈ l_st ++ l_own ++ l_fav → Story.storyId s ≠ storyId) →
  let m := removeStory server this user storyId in
  outcome m w = Resolved () ∧
  stories_of (after m w) this = Some l_st ∧
  ownStories_of (after m w) user = Some l_own ∧
  favorites_of (after m w) user = Some l_fav ∧
  sent (after m w)
    = sent w ++ [mkRequest DELETE (BASE_URL +:+ "/stories/" +:+ storyId)
                   (DataToken (User.loginToken u))].
Proof.
  intros Hst Hu Hown Hfav Hsrv Habsent m.
  apply stories_of_Some in Hst as (sl & Hsl & Hst).
  apply ownStories_of_Some in Hown as (u1 & Hu1 & Hown).
  apply favorites_of_Some in Hfav as (u2 & Hu2 & Hfav).
  assert (u1 = u) by congruence; subst u1.
  assert (u2 = u) by congruence; subst u2.
  destruct (removeStory_wp server w this user storyId sl u l_st l_own l_fav
              data) as (Ho & Hst1 & Hown1 & Hfav1); try done.
  fold m in Ho, Hst1, Hown1, Hfav1.
  rewrite !filter_differs_all in Hst1, Hown1, Hfav1;
    try (intros s Hs; apply Habsent; rewrite !elem_of_app; auto).
  repeat (split; [done|]). by apply removeStory_sent.
Qed.

(** [addStory] and then [removeStory] of the story that was added: when
    its storyId was in neither the list's stories nor the user's own
    stories, both hold again what they held before the two calls. *)
Theorem addStory_removeStory_round_trip w this user title author url sl u
    l_st l_own l_fav data storyObj data' :
  storyLists w !! this = Some sl →
  users w !! user = Some u →
  arrays w !! StoryList.stories sl = Some l_st →
  arrays w !! User.ownStories u = Some l_own →
  arrays w !! User.favorites u = Some l_fav →
  separate sl u →
  server (sent w) (request_addStory u title author url) = Response data →
  data_story data = Some storyObj →
  (∀ s, s ∈ l_st ++ l_own →
        Story.storyId s ≠ StoryObj.storyId storyObj) →
  let w1 := after (addStory server this user title author url) w in
  let m := removeStory server this user (StoryObj.storyId storyObj) in
  server (sent w1) (request_removeStory u (StoryObj.storyId storyObj))
    = Response data' →
  outcome m w1 = Resolved () ∧
  stories_of (after m w1) this = Some l_st ∧
  ownStories_of (after m w1) user = Some l_own.
Proof.
  intros Hsl Hu Hst Hown Hfav (Hn1 & Hn2 & Hn3) Hsrv Hstory Hnew w1 m Hsrv'.
  destruct (addStory_wp server w this user title author url sl u l_st l_own
              data storyObj) as (_ & Hst1 & Hown1); try done.
  destruct (addStory_objects server w this user title author url)
    as [Husers Hlists].
  fold w1 in Hst1, Hown1, Husers, Hlists.
  apply stories_of_Some in Hst1 as (sl' & Hsl' & Hst1).
  apply ownStories_of_Some in Hown1 as (u' & Hu' & Hown1).
  rewrite Hlists in Hsl'. rewrite Husers in Hu'.
  assert (sl' = sl) by congruence; subst sl'.
  assert (u' = u) by congruence; subst u'.
  assert (Hfav1 : arrays w1 !! User.favorites u = Some l_fav).
  { unfold w1. erewrite addStory_arrays; [done..| |]; by apply not_eq_sym. }
  destruct (removeStory_wp server w1 this user (StoryObj.storyId storyObj)
              sl u (Story.new storyObj :: l_st) (Story.new storyObj :: l_own)
              l_fav data') as (Ho & Hst2 & Hown2 & _); try done.
  { by rewrite Hlists. }
  { by rewrite Husers. }
  fold m in Ho, Hst2, Hown2. split; [done|].
  rewrite Hst2, Hown2. rewrite !filter_differs_cons_same by done.
  rewrite !filter_differs_all;
    try (intros s Hs; apply Hnew; rewrite elem_of_app; auto).
  done.
Qed.

End RemoveStoryComposed.

Lemma removeStory_twice_witness :
  let m := removeStory Sample.server_ok 1 1 "sid1" in
  stories_of (after m (after m Sample.w0)) 1 = Some [Sample.s2] ∧
  favorites_of (after m (after m Sample.w0)) 1 = Some [].
Proof.
  destruct (removeStory_twice Sample.server_ok Sample.w0 1 1 "sid1"
              Sample.bob [Sample.s1; Sample.s2] [Sample.s2] [Sample.s1]
              (mkData (Some [Sample.storyObj3]) (Some Sample.storyObj3)
                 (Some Sample.bobObj) (Js.str "tok"))
              (mkData (Some [Sample.storyObj3]) (Some Sample.storyObj3)
                 (Some Sample.bobObj) (Js.str "tok")))
    as (_ & Hst & _ & Hfav); [reflexivity..|].
  split; [by rewrite Hst | by rewrite Hfav].
Defined.

Lemma removeStory_absent_storyId_witness :
  let m := removeStory Sample.server_ok 1 1 "sid9" in
  stories_of (after m Sample.w0) 1 = Some [Sample.s1; Sample.s2] ∧
  length (sent (after m Sample.w0)) = 1.
Proof.
  destruct (removeStory_absent_storyId Sample.server_ok Sample.w0 1 1 "sid9"
              Sample.bob [Sample.s1; Sample.s2] [Sample.s2] [Sample.s1]
              (mkData (Some [Sample.storyObj3]) (Some Sample.storyObj3)
                 (Some Sample.bobObj) (Js.str "tok")))
    as (_ & Hst & _ & _ & Hsent); [reflexivity..| |].
  - apply Forall_forall. apply (bool_decide_unpack _). by vm_compute.
  - split; [done|]. by rewrite Hsent.
Defined.

Lemma addStory_removeStory_round_trip_witness :
  let w1 := after (addStory Sample.server_ok 1 1 "T" "A" "U") Sample.w0 in
  let m := removeStory Sample.server_ok 1 1 "sid3" in
  stories_of (after m w1) 1 = Some [Sample.s1; Sample.s2] ∧
  ownStories_of (after m w1) 1 = Some [Sample.s2].
Proof.
  destruct (addStory_removeStory_round_trip Sample.server_ok Sample.w0 1 1
              "T" "A" "U" Sample.feed Sample.bob [Sample.s1; Sample.s2]
              [Sample.s2] [Sample.s1]
              (mkData (Some [Sample.storyObj3]) (Some Sample.storyObj3)
                 (Some Sample.bobObj) (Js.str "tok")) Sample.storyObj3
              (mkData (Some [Sample.storyObj3]) (Some Sample.storyObj3)
                 (Some Sample.bobObj) (Js.str "tok")))
    as (_ & Hst & Hown); try reflexivity.
  - by repeat split.
  - apply Forall_forall. apply (bool_decide_unpack _). by vm_compute.
  - by split.
Defined.

(** ** class User: the favorites, composed *)

Lemma existsb_storyId_is_false storyId l :
  existsb (storyId_is storyId) l = false →
  ∀ s, s ∈ l → Story.storyId s ≠ storyId.
Proof.
  intros H s Hs Heq. apply not_true_iff_false in H. apply H.
  apply existsb_storyId_is. by exists s.
Qed.

Lemma filter_differs_push story l :
  List.filter (storyId_differs (Story.storyId story)) (l ++ [story])
    = List.filter (storyId_differs (Story.storyId story)) l.
Proof.
  rewrite List.filter_app, filter_differs_cons_same by done. simpl.
  by rewrite app_nil_r.
Qed.

Section FavoritesComposed.

Variable server : list Request → Request → Reply.

(** The world after [addFavorite] and a valid user in it. *)
Lemma addFavorite_after w this story u fav :
  users w !! this = Some u →
  arrays w !! User.favorites u = Some fav →
  let w1 := after (addFavorite server this story) w in
  users w1 !! this = Some u ∧
  arrays w1 !! User.favorites u = Some (fav ++ [story]) ∧
  sent w1 = sent w ++ [request_favorite POST u story].
Proof.
  intros Hu Hfav w1. unfold w1, after. erewrite addFavorite_run by done.
  simpl. by rewrite lookup_insert_eq.
Qed.

Lemma removeFavorite_after w this story u fav :
  users w !! this = Some u →
  arrays w !! User.favorites u = Some fav →
  let w1 := after (removeFavorite server this story) w in
  ∃ u', users w1 !! this = Some u' ∧
    same_profile u u' ∧
    User.ownStories u' = User.ownStories u ∧
    User.favorites u' ≠ User.favorites u ∧
    arrays w !! User.favorites u' = None ∧
    arrays w1 !! User.favorites u'
      = Some (List.filter (storyId_differs (Story.storyId story)) fav) ∧
    (∀ r, r ≠ User.favorites u' → arrays w1 !! r = arrays w !! r) ∧
    sent w1 = sent w ++ [request_favorite DELETE u story].
Proof.
  intros Hu Hfav w1. unfold w1, after.
  rewrite (removeFavorite_run server w this story u fav) by done.
  pose proof (fresh_None (arrays w)) as Hfresh. simpl.
  eexists. rewrite lookup_insert_eq. split; [done|]. simpl.
  split; [by repeat split|]. split; [done|]. split; [congruence|].
  split; [done|]. rewrite lookup_insert_eq. split; [done|].
  split; [|done]. intros r Hr. by rewrite lookup_insert_ne.
Qed.

(** [addFavorite(story)] and then [removeFavorite(story)] leave the
    favorites without any entry of that storyId, the others in order; so
    when the story was no favorite before, the favorites hold again what
    they held.  This is so whatever the service replies to the two
    requests. *)
Theorem addFavorite_removeFavorite_round_trip w this story u fav :
  users w !! this = Some u →
  arrays w !! User.favorites u = Some fav →
  let w1 := after (addFavorite server this story) w in
  let w2 := after (removeFavorite server this story) w1 in
  favorites_of w2 this
    = Some (List.filter
              (λ s, bool_decide (Story.storyId s ≠ Story.storyId story))
              fav) ∧
  (outcome (isFavorite this story) w = Resolved false →
   favorites_of w2 this = Some fav).
Proof.
  intros Hu Hfav w1 w2.
  destruct (addFavorite_after w this story u fav Hu Hfav)
    as (Hu1 & Hfav1 & _). fold w1 in Hu1, Hfav1.
  destruct (removeFavorite_after w1 this story u (fav ++ [story]) Hu1 Hfav1)
    as (u' & Hu' & _ & _ & _ & _ & Hfav2 & _). fold w2 in Hu', Hfav2.
  assert (H : favorites_of w2 this
              = Some (List.filter (storyId_differs (Story.storyId story))
                        fav)).
  { apply favorites_of_Some. exists u'. split; [done|].
    by rewrite Hfav2, filter_differs_push. }
  split; [done|]. intros Hnot. rewrite H.
  unfold outcome in Hnot. erewrite isFavorite_run in Hnot by done.
  injection Hnot as Hnot.
  by rewrite filter_differs_all by by apply existsb_storyId_is_false.
Qed.

(** [removeFavorite] gives the user a new favorites array and leaves the
    array that was [this.favorites] holding what it held; [addFavorite]
    changes that array itself, and [this.favorites] still refers to it. *)
Theorem removeFavorite_new_array w this story u fav :
  users w !! this = Some u →
  arrays w !! User.favorites u = Some fav →
  let w_add := after (addFavorite server this story) w in
  let w_remove := after (removeFavorite server this story) w in
  (users w_add !! this = Some u ∧
   arrays w_add !! User.favorites u = Some (fav ++ [story])) ∧
  (∃ u', users w_remove !! this = Some u' ∧
     User.favorites u' ≠ User.favorites u ∧
     arrays w !! User.favorites u' = None ∧
     arrays w_remove !! User.favorites u = Some fav ∧
     User.ownStories u' = User.ownStories u).
Proof.
  intros Hu Hfav w_add w_remove. split.
  - destruct (addFavorite_after w this story u fav Hu Hfav) as (? & ? & _).
    by split.
  - destruct (removeFavorite_after w this story u fav Hu Hfav)
      as (u' & Hu' & _ & Hown & Hne & Hnew & _ & Hkept & _).
    exists u'. repeat (split; [done|]). split; [|done].
    unfold w_remove. rewrite Hkept by by apply not_eq_sym. done.
Qed.

(** The two requests on favorites go to one URL, made of the username of
    the user and the storyId of the story, with the user's token in the
    body: [addFavorite] sends a POST and [removeFavorite] a DELETE, one
    request each, and each method settles as its request does.
    [_addOrRemoveFavorite] sends a DELETE for every [newState] but
    ["add"]. *)
Theorem favorites_requests w this story u fav :
  users w !! this = Some u →
  arrays w !! User.favorites u = Some fav →
  let url := BASE_URL +:+ "/users/" +:+ User.username u +:+ "/favorites/"
               +:+ Story.storyId story in
  let body := DataToken (User.loginToken u) in
  (sent (after (addFavorite server this story) w)
     = sent w ++ [mkRequest POST url body] ∧
   outcome (addFavorite server this story) w
     = settled (server (sent w) (mkRequest POST url body))) ∧
  (sent (after (removeFavorite server this story) w)
     = sent w ++ [mkRequest DELETE url body] ∧
   outcome (removeFavorite server this story) w
     = settled (server (sent w) (mkRequest DELETE url body))) ∧
  (∀ newState, newState ≠ "add" →
     sent (after (_addOrRemoveFavorite server this newState story) w)
       = sent w ++ [mkRequest DELETE url body]).
Proof.
  intros Hu Hfav url body. split; [|split].
  - unfold outcome, after. by erewrite addFavorite_run.
  - unfold outcome, after.
    by rewrite (removeFavorite_run server w this story u fav).
  - intros newState Hne.
    unfold after, _addOrRemoveFavorite, mbind, Eff_bind, get_user, axios.
    rewrite Hu, bool_decide_eq_false_2 by done.
    by destruct (server _ _).
Qed.

(** A favorite is known by its storyId alone.  For two Story objects with
    one storyId, [isFavorite] answers the same for both; after
    [addFavorite] of the one, [isFavorite] of the other is true; and
    [removeFavorite] of the other then removes the one. *)
Theorem favorites_by_storyId w this story story' u fav :
  users w !! this = Some u →
  arrays w !! User.favorites u = Some fav →
  Story.storyId story' = Story.storyId story →
  let w1 := after (addFavorite server this story) w in
  let w2 := after (removeFavorite server this story') w1 in
  outcome (isFavorite this story') w = outcome (isFavorite this story) w ∧
  outcome (isFavorite this story') w1 = Resolved true ∧
  outcome (isFavorite this story) w2 = Resolved false ∧
  favorites_of w2 this
    = Some (List.filter
              (λ s, bool_decide (Story.storyId s ≠ Story.storyId story))
              fav).
Proof.
  intros Hu Hfav Hid w1 w2.
  destruct (addFavorite_after w this story u fav Hu Hfav)
    as (Hu1 & Hfav1 & _). fold w1 in Hu1, Hfav1.
  destruct (removeFavorite_after w1 this story' u (fav ++ [story]) Hu1 Hfav1)
    as (u' & Hu' & _ & _ & _ & _ & Hfav2 & _). fold w2 in Hu', Hfav2.
  rewrite Hid, filter_differs_push in Hfav2.
  unfold outcome. rewrite !(isFavorite_run w this _ u fav) by done.
  rewrite (isFavorite_run w1 this _ u (fav ++ [story])) by done.
  erewrite (isFavorite_run w2 this _ u') by done.
  rewrite Hid, existsb_is_after_push, existsb_is_after_filter.
  repeat (split; [done|]).
  apply favorites_of_Some. by exists u'.
Qed.

End FavoritesComposed.

Lemma addFavorite_removeFavorite_round_trip_witness :
  let w1 := after (addFavorite Sample.server_down 1 Sample.s2) Sample.w0 in
  let w2 := after (removeFavorite Sample.server_down 1 Sample.s2) w1 in
  favorites_of w2 1 = Some [Sample.s1].
Proof.
  destruct (addFavorite_removeFavorite_round_trip Sample.server_down
              Sample.w0 1 Sample.s2 Sample.bob [Sample.s1] eq_refl eq_refl)
    as (_ & H).
  by apply H.
Defined.

Lemma removeFavorite_new_array_witness :
  let w_remove := after (removeFavorite Sample.server_ok 1 Sample.s1)
                    Sample.w0 in
  arrays w_remove !! 3%positive = Some [Sample.s1] ∧
  favorites_of w_remove 1 = Some [].
Proof.
  destruct (removeFavorite_new_array Sample.server_ok Sample.w0 1 Sample.s1
              Sample.bob [Sample.s1] eq_refl eq_refl)
    as (_ & u' & _ & _ & _ & Hold & _).
  by split.
Defined.

Lemma favorites_requests_witness :
  sent (after (addFavorite Sample.server_ok 1 Sample.s2) Sample.w0)
    = [mkRequest POST
         "https://hack-or-snooze-v3.herokuapp.com/users/bob/favorites/sid2"
         (DataToken (Js.str "tok"))] ∧
  sent (after (removeFavorite Sample.server_ok 1 Sample.s2) Sample.w0)
    = [mkRequest DELETE
         "https://hack-or-snooze-v3.herokuapp.com/users/bob/favorites/sid2"
         (DataToken (Js.str "tok"))].
Proof.
  destruct (favorites_requests Sample.server_ok Sample.w0 1 Sample.s2
              Sample.bob [Sample.s1] eq_refl eq_refl)
    as ((Hadd & _) & (Hremove & _) & _).
  split; [exact Hadd | exact Hremove].
Defined.

Lemma favorites_by_storyId_witness :
  let other := Story.mk "X" "Y" "Z" "eve" "sid2" "2024" "2024" in
  let w1 := after (addFavorite Sample.server_ok 1 Sample.s2) Sample.w0 in
  let w2 := after (removeFavorite Sample.server_ok 1 other) w1 in
  outcome (isFavorite 1 other) w1 = Resolved true ∧
  outcome (isFavorite 1 Sample.s2) w2 = Resolved false.
Proof.
  destruct (favorites_by_storyId Sample.server_ok Sample.w0 1 Sample.s2
              (Story.mk "X" "Y" "Z" "eve" "sid2" "2024" "2024") Sample.bob
              [Sample.s1] eq_refl eq_refl eq_refl)
    as (_ & H1 & H2 & _).
  by split.
Defined.

(** ** The requests of a call *)

Ltac sent_kept := intros; first [by left | right; by eexists].

Section Requests.

Variable server : list Request → Request → Reply.

Lemma getStories_sends w :
  sends_at_most_one w (after (getStories server) w).
Proof.
  change (wp (getStories server) w (λ _ w', sends_at_most_one w w')).
  unfold getStories.
  apply wp_bind, wp_axios_any; [intros data Hdata|sent_kept].
  apply wp_bind, wp_prop_any; [intros objs Hobjs|sent_kept].
  apply wp_bind, wp_of_records. intros r Hr.
  apply wp_bind, wp_new_StoryList. intros this Hthis. apply wp_ret.
  sent_kept.
Qed.

Lemma addStory_sends w this user title author url :
  sends_at_most_one w (after (addStory server this user title author url) w).
Proof.
  change (wp (addStory server this user title author url) w
            (λ _ w', sends_at_most_one w w')).
  unfold addStory.
  apply wp_bind, wp_get_user_any; [intros u Hu|sent_kept].
  apply wp_bind, wp_axios_any; [intros data Hdata|sent_kept].
  apply wp_bind, wp_prop_any; [intros storyObj Hstory|sent_kept].
  apply wp_bind, wp_get_storyList_any; [intros sl Hsl|sent_kept].
  apply wp_bind, wp_unshift_any; [intros l_st Hst|sent_kept].
  apply wp_bind, wp_get_user_any; [intros u' Hu'|sent_kept].
  apply wp_bind, wp_unshift_any; [intros l_own Hown|sent_kept].
  apply wp_ret. sent_kept.
Qed.

Lemma removeStory_sends w this user storyId :
  sends_at_most_one w (after (removeStory server this user storyId) w).
Proof.
  destruct (users w !! user) as [u|] eqn:Hu.
  - right. eexists. by apply removeStory_sent.
  - left. unfold after, removeStory, mbind, Eff_bind, get_user.
    by rewrite Hu.
Qed.

Lemma create_sends w username password name :
  sends_at_most_one w (after (create server username password name) w).
Proof.
  change (wp (create server username password name) w
            (λ _ w', sends_at_most_one w w')).
  unfold create.
  apply wp_bind, wp_axios_any; [intros data Hdata|sent_kept].
  apply wp_bind, wp_prop_any; [intros userObj Huser|sent_kept].
  apply wp_bind, wp_new_User. intros fav own this Hfav Hown Hne Hthis.
  apply wp_bind. eapply wp_set_loginToken; [solve_lookup|].
  apply wp_ret. sent_kept.
Qed.

Lemma login_sends w username password :
  sends_at_most_one w (after (login server username password) w).
Proof.
  change (wp (login server username password) w
            (λ _ w', sends_at_most_one w w')).
  unfold login.
  apply wp_bind, wp_axios_any; [intros data Hdata|sent_kept].
  apply wp_bind, wp_prop_any; [intros userObj Huser|sent_kept].
  apply wp_bind, wp_new_User. intros fav0 own0 this Hfav0 Hown0 Hne Hthis.
  apply wp_bind, wp_of_records. intros fav Hfav.
  apply wp_bind. eapply wp_set_favorites; [solve_lookup|].
  apply wp_bind, wp_of_records. intros own Hown.
  apply wp_bind. eapply wp_set_ownStories; [solve_lookup|].
  apply wp_bind. eapply wp_set_loginToken; [solve_lookup|].
  apply wp_ret. sent_kept.
Qed.

Lemma getLoggedInUser_sends w token username :
  sends_at_most_one w (after (getLoggedInUser server token username) w).
Proof.
  destruct (Js.truthy token) eqn:Htoken;
    [destruct (Js.truthy username) eqn:Husername|].
  - right. eexists. by apply getLoggedInUser_one_request.
  - left. unfold after. rewrite getLoggedInUser_null; auto.
  - left. unfold after. rewrite getLoggedInUser_null; auto.
Qed.

Lemma addFavorite_sends w this story :
  sends_at_most_one w (after (addFavorite server this story) w).
Proof.
  change (wp (addFavorite server this story) w
            (λ _ w', sends_at_most_one w w')).
  unfold addFavorite, _addOrRemoveFavorite.
  apply wp_bind, wp_get_user_any; [intros u Hu|sent_kept].
  apply wp_bind, wp_push_any; [intros fav Hfav|sent_kept].
  apply wp_bind, wp_get_user_any; [intros u' Hu'|sent_kept].
  apply wp_bind, wp_axios_any; sent_kept.
Qed.

Lemma removeFavorite_sends w this story :
  sends_at_most_one w (after (removeFavorite server this story) w).
Proof.
  change (wp (removeFavorite server this story) w
            (λ _ w', sends_at_most_one w w')).
  unfold removeFavorite, _addOrRemoveFavorite.
  apply wp_bind, wp_get_user_any; [intros u Hu|sent_kept].
  apply wp_bind, wp_filter_any; [intros fav r Hfav Hr|sent_kept].
  apply wp_bind. eapply wp_set_favorites; [done|].
  apply wp_bind, wp_get_user_any; [intros u' Hu'|sent_kept].
  apply wp_bind, wp_axios_any; sent_kept.
Qed.

(** No call sends more than one request, and none touches the requests
    sent before it: after any call of any method the requests are those
    sent before, followed by one request at most.  [isFavorite], and
    [getLoggedInUser] when the guard returns [null], send none. *)
Theorem one_request_per_call c w :
  sends_at_most_one w (run server c w) ∧
  (∀ this story, c = Call_isFavorite this story →
                 sent (run server c w) = sent w).
Proof.
  split.
  - destruct c; simpl;
      auto using getStories_sends, addStory_sends, removeStory_sends,
        create_sends, login_sends, getLoggedInUser_sends, addFavorite_sends,
        removeFavorite_sends.
    left. by rewrite isFavorite_pure.
  - intros this story ->. simpl. by rewrite isFavorite_pure.
Qed.

End Requests.

Lemma one_request_per_call_witness :
  sent (run Sample.server_ok (Call_isFavorite 1 Sample.s1) Sample.w0)
    = sent Sample.w0.
Proof.
  destruct (one_request_per_call Sample.server_ok
              (Call_isFavorite 1 Sample.s1) Sample.w0) as [_ H].
  by apply (H 1%positive Sample.s1).
Defined.

(** ** The worlds built by calls *)

Section Built.

Variable server : list Request → Request → Reply.

(** In a world built from the empty one by calls of the methods, the
    arrays that a list and a user refer to exist, and the list's stories,
    the user's favorites and the user's own stories are three different
    arrays: no call makes two fields share an array. *)
Theorem built_worlds_separate w this user sl u :
  built server w →
  storyLists w !! this = Some sl →
  users w !! user = Some u →
  StoryList.stories sl ≠ User.favorites u ∧
  StoryList.stories sl ≠ User.ownStories u ∧
  User.favorites u ≠ User.ownStories u ∧
  is_Some (stories_of w this) ∧
  is_Some (favorites_of w user) ∧
  is_Some (ownStories_of w user).
Proof.
  intros Hbuilt Hsl Hu.
  destruct (wf_separate w this user sl u (built_wf server w Hbuilt) Hsl Hu)
    as ((? & ? & ?) & Hst & Hfav & Hown).
  repeat (split; [done|]).
  unfold stories_of, favorites_of, ownStories_of. rewrite Hsl, Hu. simpl.
  done.
Qed.

End Built.

Lemma built_worlds_separate_witness :
  is_Some (stories_of Sample.w_session 1) ∧
  is_Some (ownStories_of Sample.w_session 1).
Proof.
  destruct (built_worlds_separate Sample.server_ok Sample.w_session 1 1
              (StoryList.mk 5)
              (User.mk "bob" "Bob B" "2019" "2019" (Js.str "tok") 3 4))
    as (_ & _ & _ & Hst & _ & Hown).
  - unfold Sample.w_session, Sample.w_login.
    apply built_call, built_call, built_empty.
  - by vm_compute.
  - by vm_compute.
  - by split.
Defined.

(** ** class User: the factories *)

Section Factories.

Variable server : list Request → Request → Reply.

(** [create] takes the profile and the token from the response and no
    list: the User it returns is a new object with empty favorites and
    empty own stories, whatever favorite and story records the user record
    of the response carries. *)
Theorem create_empty_lists w username password name data userObj :
  server (sent w) (request_signup username password name) = Response data →
  data_user data = Some userObj →
  let m := create server username password name in
  ∃ this u,
    outcome m w = Resolved this ∧
    users w !! this = None ∧
    users (after m w) !! this = Some u ∧
    favorites_of (after m w) this = Some [] ∧
    ownStories_of (after m w) this = Some [] ∧
    User.createdAt u = UserObj.createdAt userObj ∧
    User.updatedAt u = UserObj.updatedAt userObj.
Proof.
  intros Hsrv Huser m.
  destruct (create_wp server w username password name data userObj Hsrv
              Huser)
    as (this & u & Ho & Hnew & Hu & _ & _ & Hc & Hup & _ & Hfav & Hown).
  by exists this, u.
Qed.

Lemma create_extends w username password name :
  extends w (after (create server username password name) w).
Proof.
  change (wp (create server username password name) w
            (λ _ w', extends w w')).
  unfold create.
  apply wp_bind, wp_axios_any; [intros data Hdata|intros; by repeat split].
  apply wp_bind, wp_prop_any; [intros userObj Huser|intros; by repeat split].
  apply wp_bind, wp_new_User. intros fav own this Hfav Hown Hne Hthis.
  apply wp_bind. eapply wp_set_loginToken; [solve_lookup|].
  apply wp_ret. extends_kept.
Qed.

Lemma login_extends w username password :
  extends w (after (login server username password) w).
Proof.
  change (wp (login server username password) w (λ _ w', extends w w')).
  unfold login.
  apply wp_bind, wp_axios_any; [intros data Hdata|intros; by repeat split].
  apply wp_bind, wp_prop_any; [intros userObj Huser|intros; by repeat split].
  apply wp_bind, wp_new_User. intros fav0 own0 this Hfav0 Hown0 Hne Hthis.
  apply wp_bind, wp_of_records. intros fav Hfav.
  apply wp_bind. eapply wp_set_favorites; [solve_lookup|].
  apply wp_bind, wp_of_records. intros own Hown.
  apply wp_bind. eapply wp_set_ownStories; [solve_lookup|].
  apply wp_bind. eapply wp_set_loginToken; [solve_lookup|].
  apply wp_ret. extends_kept.
Qed.

Lemma getLoggedInUser_extends w token username :
  extends w (after (getLoggedInUser server token username) w).
Proof.
  change (wp (getLoggedInUser server token username) w
            (λ _ w', extends w w')).
  unfold getLoggedInUser.
  destruct (Js.not token || Js.not username); [apply extends_refl|].
  apply wp_bind, wp_axios_any; [intros data Hdata|intros; by repeat split].
  apply wp_bind, wp_prop_any; [intros userObj Huser|intros; by repeat split].
  apply wp_bind, wp_new_User. intros fav0 own0 this Hfav0 Hown0 Hne Hthis.
  apply wp_bind. eapply wp_set_loginToken; [solve_lookup|].
  apply wp_bind, wp_of_records. intros fav Hfav.
  apply wp_bind. eapply wp_set_favorites; [solve_lookup|].
  apply wp_bind, wp_of_records. intros own Hown.
  apply wp_bind. eapply wp_set_ownStories; [solve_lookup|].
  apply wp_ret. extends_kept.
Qed.

Lemma getStories_extends w : extends w (after (getStories server) w).
Proof.
  change (wp (getStories server) w (λ _ w', extends w w')).
  unfold getStories.
  apply wp_bind, wp_axios_any; [intros data Hdata|intros; by repeat split].
  apply wp_bind, wp_prop_any; [intros objs Hobjs|intros; by repeat split].
  apply wp_bind, wp_of_records. intros r Hr.
  apply wp_bind, wp_new_StoryList. intros this Hthis. apply wp_ret.
  extends_kept.
Qed.

(** The four static methods make objects and change none: after
    [getStories], [create], [login] or [getLoggedInUser], whatever the
    outcome, every list holds the stories it held and every user has the
    fields, the favorites and the own stories it had. *)
Theorem factories_change_nothing w c :
  match c with
  | Call_getStories | Call_create _ _ _ | Call_login _ _
  | Call_getLoggedInUser _ _ => True
  | _ => False
  end →
  let w' := run server c w in
  (∀ user u, users w !! user = Some u → users w' !! user = Some u) ∧
  (∀ this l, stories_of w this = Some l → stories_of w' this = Some l) ∧
  (∀ user l, favorites_of w user = Some l → favorites_of w' user = Some l) ∧
  (∀ user l, ownStories_of w user = Some l →
             ownStories_of w' user = Some l).
Proof.
  intros Hc w'.
  assert (Hext : extends w w').
  { unfold w'. destruct c; try done; simpl;
      auto using getStories_extends, create_extends, login_extends,
        getLoggedInUser_extends. }
  destruct Hext as (Harr & Husers & Hlists).
  split; [done|]. split; [|split].
  - intros this l. rewrite !stories_of_Some. intros (sl & ? & ?).
    exists sl. eauto.
  - intros user l. rewrite !favorites_of_Some. intros (u & ? & ?).
    exists u. eauto.
  - intros user l. rewrite !ownStories_of_Some. intros (u & ? & ?).
    exists u. eauto.
Qed.

Lemma create_failure w username password name message :
  server (sent w) (request_signup username password name)
    = Failure message →
  create server username password name w
    = (Rejected (AxiosError message),
       upd_sent (request_signup username password name) w).
Proof.
  intros Hsrv. unfold create, mbind, Eff_bind, axios.
  unfold request_signup in Hsrv. by rewrite Hsrv.
Qed.

Lemma create_no_user w username password name data :
  server (sent w) (request_signup username password name) = Response data →
  data_user data = None →
  create server username password name w
    = (Rejected TypeError,
       upd_sent (request_signup username password name) w).
Proof.
  intros Hsrv Hnone. unfold create, mbind, Eff_bind, axios.
  unfold request_signup in Hsrv. rewrite Hsrv. by rewrite Hnone.
Qed.

Lemma login_failure w username password message :
  server (sent w) (request_login username password) = Failure message →
  login server username password w
    = (Rejected (AxiosError message),
       upd_sent (request_login username password) w).
Proof.
  intros Hsrv. unfold login, mbind, Eff_bind, axios.
  unfold request_login in Hsrv. by rewrite Hsrv.
Qed.

Lemma login_no_user w username password data :
  server (sent w) (request_login username password) = Response data →
  data_user data = None →
  login server username password w
    = (Rejected TypeError, upd_sent (request_login username password) w).
Proof.
  intros Hsrv Hnone. unfold login, mbind, Eff_bind, axios.
  unfold request_login in Hsrv. rewrite Hsrv. by rewrite Hnone.
Qed.

Lemma getLoggedInUser_failure w token username message :
  Js.truthy token = true → Js.truthy username = true →
  server (sent w) (request_user token username) = Failure message →
  getLoggedInUser server token username w
    = (Rejected (AxiosError message),
       upd_sent (request_user token username) w).
Proof.
  intros Htoken Husername Hsrv.
  unfold getLoggedInUser, Js.not, mbind, Eff_bind, axios.
  rewrite Htoken, Husername. simpl.
  unfold request_user in Hsrv. by rewrite Hsrv.
Qed.

Lemma getLoggedInUser_no_user w token username data :
  Js.truthy token = true → Js.truthy username = true →
  server (sent w) (request_user token username) = Response data →
  data_user data = None →
  getLoggedInUser server token username w
    = (Rejected TypeError, upd_sent (request_user token username) w).
Proof.
  intros Htoken Husername Hsrv Hnone.
  unfold getLoggedInUser, Js.not, mbind, Eff_bind, axios.
  rewrite Htoken, Husername. simpl.
  unfold request_user in Hsrv. rewrite Hsrv. by rewrite Hnone.
Qed.

(** [create], [login] and [getLoggedInUser] make the User after the
    request.  When the request fails they reject with its error, and when
    the response has no [user] they reject with a TypeError; in both cases
    the request has been sent and no User and no array has been made.
    [getLoggedInUser] does not turn a failed request into [null]. *)
Theorem account_rejections w :
  (∀ username password name,
     let request := request_signup username password name in
     (∀ message, server (sent w) request = Failure message →
        create server username password name w
          = (Rejected (AxiosError message), upd_sent request w)) ∧
     (∀ data, server (sent w) request = Response data →
        data_user data = None →
        create server username password name w
          = (Rejected TypeError, upd_sent request w))) ∧
  (∀ username password,
     let request := request_login username password in
     (∀ message, server (sent w) request = Failure message →
        login server username password w
          = (Rejected (AxiosError message), upd_sent request w)) ∧
     (∀ data, server (sent w) request = Response data →
        data_user data = None →
        login server username password w
          = (Rejected TypeError, upd_sent request w))) ∧
  (∀ token username,
     Js.truthy token = true → Js.truthy username = true →
     let request := request_user token username in
     (∀ message, server (sent w) request = Failure message →
        getLoggedInUser server token username w
          = (Rejected (AxiosError message), upd_sent request w)) ∧
     (∀ data, server (sent w) request = Response data →
        data_user data = None →
        getLoggedInUser server token username w
          = (Rejected TypeError, upd_sent request w))).
Proof.
  split; [|split].
  - intros username password name request. split; intros.
    + by apply create_failure.
    + by eapply create_no_user.
  - intros username password request. split; intros.
    + by apply login_failure.
    + by eapply login_no_user.
  - intros token username Htoken Husername request. split; intros.
    + by apply getLoggedInUser_failure.
    + by eapply getLoggedInUser_no_user.
Qed.

(** The lists of a factory are the lists of the response, duplicates and
    all: the User of [login] has no two favorites and no two own stories
    with one storyId exactly when the favorite records and the story
    records of the response have none, and the StoryList of [getStories]
    has no two stories with one storyId exactly when the records of the
    feed have none. *)
Theorem factories_duplicates w :
  (∀ username password data userObj,
     server (sent w) (request_login username password) = Response data →
     data_user data = Some userObj →
     let m := login server username password in
     ∃ this, outcome m w = Resolved this ∧
       (user_inv (after m w) this ↔
        NoDup (map StoryObj.storyId (UserObj.favorites userObj)) ∧
        NoDup (map StoryObj.storyId (UserObj.stories userObj)))) ∧
  (∀ data objs,
     server (sent w) request_stories = Response data →
     data_stories data = Some objs →
     let m := getStories server in
     ∃ this, outcome m w = Resolved this ∧
       (storyList_inv (after m w) this ↔
        NoDup (map StoryObj.storyId objs))).
Proof.
  split.
  - intros username password data userObj Hsrv Huser m.
    destruct (login_wp server w username password data userObj Hsrv Huser)
      as (this & u & Ho & _ & _ & _ & _ & _ & Hfav & Hown).
    exists this. split; [done|]. fold m in Hfav, Hown.
    unfold user_inv. rewrite Hfav, Hown. unfold no_duplicates.
    by rewrite !map_storyId_new.
  - intros data objs Hsrv Hobjs m.
    destruct (getStories_wp server w data objs Hsrv Hobjs)
      as (this & Ho & _ & Hst & _).
    exists this. split; [done|]. fold m in Hst.
    unfold storyList_inv. rewrite Hst. unfold no_duplicates.
    by rewrite map_storyId_new.
Qed.

End Factories.

Lemma create_empty_lists_witness :
  let m := create Sample.server_ok "bob" "secret" "Bob B" in
  length (UserObj.favorites Sample.bobObj) = 1 ∧
  ∃ this,
    outcome m Sample.w0 = Resolved this ∧
    favorites_of (after m Sample.w0) this = Some [] ∧
    ownStories_of (after m Sample.w0) this = Some [].
Proof.
  split; [reflexivity|].
  destruct (create_empty_lists Sample.server_ok Sample.w0 "bob" "secret"
              "Bob B"
              (mkData (Some [Sample.storyObj3]) (Some Sample.storyObj3)
                 (Some Sample.bobObj) (Js.str "tok")) Sample.bobObj
              eq_refl eq_refl)
    as (this & u & Ho & _ & _ & Hfav & Hown & _).
  by exists this.
Defined.

Lemma factories_change_nothing_witness :
  let w' := run Sample.server_ok (Call_login "bob" "secret") Sample.w0 in
  users w' !! 1%positive = Some Sample.bob ∧
  favorites_of w' 1 = Some [Sample.s1] ∧
  stories_of w' 1 = Some [Sample.s1; Sample.s2].
Proof.
  destruct (factories_change_nothing Sample.server_ok Sample.w0
              (Call_login "bob" "secret") I)
    as (Husers & Hst & Hfav & _).
  split; [by apply Husers|]. split; [by apply Hfav | by apply Hst].
Defined.

Lemma account_rejections_witness :
  outcome (login Sample.server_down "bob" "secret") Sample.w0
    = Rejected (AxiosError "Network Error") ∧
  outcome (create Sample.server_bare "bob" "secret" "Bob B") Sample.w0
    = Rejected TypeError ∧
  getLoggedInUser Sample.server_down (Js.str "tok") (Js.str "bob") Sample.w0
    = (Rejected (AxiosError "Network Error"),
       upd_sent (request_user (Js.str "tok") (Js.str "bob")) Sample.w0).
Proof.
  destruct (account_rejections Sample.server_down Sample.w0)
    as (_ & Hlogin & Hget).
  destruct (account_rejections Sample.server_bare Sample.w0)
    as (Hcreate & _ & _).
  destruct (Hlogin "bob" "secret") as [Hlogin' _].
  destruct (Hcreate "bob" "secret" "Bob B") as [_ Hcreate'].
  destruct (Hget (Js.str "tok") (Js.str "bob") eq_refl eq_refl)
    as [Hget' _].
  unfold outcome. rewrite (Hlogin' "Network Error" eq_refl).
  rewrite (Hcreate' (mkData None None None Js.undefined) eq_refl eq_refl).
  split; [done|]. split; [done|]. by apply Hget'.
Defined.

Lemma factories_duplicates_witness :
  ∃ this,
    outcome (login Sample.server_ok "bob" "secret") Sample.w0
      = Resolved this ∧
    user_inv (after (login Sample.server_ok "bob" "secret") Sample.w0) this.
Proof.
  destruct (factories_duplicates Sample.server_ok Sample.w0) as [Hlogin _].
  destruct (Hlogin "bob" "secret"
              (mkData (Some [Sample.storyObj3]) (Some Sample.storyObj3)
                 (Some Sample.bobObj) (Js.str "tok")) Sample.bobObj
              eq_refl eq_refl) as (this & Ho & Hinv).
  exists this. split; [done|]. apply Hinv.
  split; apply (bool_decide_unpack _); by vm_compute.
Defined.

(** ** class User: what the favorites methods leave alone, and login then
    isFavorite *)

Section FavoritesFrame.

Variable server : list Request → Request → Reply.

(** [removeFavorite] leaves the user's own stories and every list as they
    were; [addFavorite] does so for the own stories and the lists that do
    not share the favorites array.  Both hold whatever the request comes
    to. *)
Theorem favorites_frame w this story u fav :
  users w !! this = Some u →
  arrays w !! User.favorites u = Some fav →
  (let w' := after (removeFavorite server this story) w in
   (∀ l, ownStories_of w this = Some l → ownStories_of w' this = Some l) ∧
   (∀ that l, stories_of w that = Some l → stories_of w' that = Some l)) ∧
  (let w' := after (addFavorite server this story) w in
   (User.favorites u ≠ User.ownStories u →
    ownStories_of w' this = ownStories_of w this) ∧
   (∀ that sl, storyLists w !! that = Some sl →
               StoryList.stories sl ≠ User.favorites u →
               stories_of w' that = stories_of w that)).
Proof.
  intros Hu Hfav. split.
  - intros w'.
    destruct (removeFavorite_after server w this story u fav Hu Hfav)
      as (u' & Hu' & _ & Hown & _ & Hnew & _ & Hkept & _).
    fold w' in Hu', Hkept.
    assert (Hlists : storyLists w' = storyLists w).
    { unfold w', after.
      by rewrite (removeFavorite_run server w this story u fav). }
    split.
    + intros l. rewrite !ownStories_of_Some. intros (u0 & Hu0 & Hl).
      assert (u0 = u) by congruence; subst u0.
      exists u'. split; [done|]. rewrite Hown, Hkept; [done|congruence].
    + intros that l. rewrite !stories_of_Some. intros (sl & Hsl & Hl).
      exists sl. rewrite Hlists. split; [done|].
      rewrite Hkept; [done|congruence].
  - intros w'. unfold w', after. erewrite addFavorite_run by done.
    unfold ownStories_of, stories_of. simpl. split.
    + intros Hne. rewrite Hu. simpl. by rewrite lookup_insert_ne.
    + intros that sl Hsl Hne. rewrite Hsl. simpl.
      by rewrite lookup_insert_ne.
Qed.

(** After a successful [login], [isFavorite(story)] on the User returned
    is true exactly for the stories whose storyId is the storyId of a
    favorite record of the response. *)
Theorem login_then_isFavorite w username password data userObj story :
  server (sent w) (request_login username password) = Response data →
  data_user data = Some userObj →
  let m := login server username password in
  ∃ this b,
    outcome m w = Resolved this ∧
    isFavorite this story (after m w) = (Resolved b, after m w) ∧
    (b = true ↔
     Story.storyId story
       ∈ map StoryObj.storyId (UserObj.favorites userObj)).
Proof.
  intros Hsrv Huser m.
  destruct (login_wp server w username password data userObj Hsrv Huser)
    as (this & u & Ho & _ & Hu & _ & _ & _ & Hfav & _).
  fold m in Ho, Hu, Hfav.
  apply favorites_of_Some in Hfav as (u' & Hu' & Hfav).
  assert (u' = u) by congruence; subst u'.
  exists this. eexists. split; [done|].
  split; [by apply isFavorite_run with u|].
  rewrite existsb_storyId_is, list_elem_of_fmap. split.
  - intros (s & Hs & Hid). apply list_elem_of_fmap in Hs as (obj & -> & Hobj).
    exists obj. by split.
  - intros (obj & Hid & Hobj). exists (Story.new obj). split; [|done].
    apply list_elem_of_fmap. by exists obj.
Qed.

End FavoritesFrame.

Lemma favorites_frame_witness :
  ownStories_of
    (after (removeFavorite Sample.server_ok 1 Sample.s1) Sample.w0) 1
    = Some [Sample.s2] ∧
  stories_of (after (addFavorite Sample.server_ok 1 Sample.s2) Sample.w0) 1
    = Some [Sample.s1; Sample.s2].
Proof.
  destruct (favorites_frame Sample.server_ok Sample.w0 1 Sample.s1
              Sample.bob [Sample.s1] eq_refl eq_refl) as ((Hown & _) & _).
  destruct (favorites_frame Sample.server_ok Sample.w0 1 Sample.s2
              Sample.bob [Sample.s1] eq_refl eq_refl) as (_ & (_ & Hst)).
  split; [by apply Hown|].
  by rewrite (Hst 1%positive Sample.feed).
Defined.

Lemma login_then_isFavorite_witness :
  let m := login Sample.server_ok "bob" "secret" in
  ∃ this,
    outcome m Sample.w0 = Resolved this ∧
    outcome (isFavorite this Sample.s1) (after m Sample.w0) = Resolved true.
Proof.
  destruct (login_then_isFavorite Sample.server_ok Sample.w0 "bob" "secret"
              (mkData (Some [Sample.storyObj3]) (Some Sample.storyObj3)
                 (Some Sample.bobObj) (Js.str "tok")) Sample.bobObj Sample.s1
              eq_refl eq_refl) as (this & b & Ho & Hb & Hiff).
  exists this. split; [done|]. unfold outcome. rewrite Hb. simpl.
  f_equal. apply Hiff. apply (bool_decide_unpack _). by vm_compute.
Defined.
